(** * astrbot_plugin_qqadmin: moderation core

    A shallow embedding of the stateful decision logic of the plugin:
    - [core/banpro_handel.py]: the flood (spamming) detector, the vote-to-mute
      sessions with their deferred settlement, and the link white list;
    - [core/join_handle.py]: the per-group join settings and the ordered
      admission rules of [should_approve].

    Python [str] values are modelled as byte strings (UTF-8).  [str.lower]
    follows the Unicode case mappings; it is kept abstract behind the
    [Lower] interface, which records what it does to ASCII text and to the
    slash, so every general statement holds for the lowering Python
    performs; the lowering of ASCII text gives an instance to run examples
    on.  Python dicts are finite maps.  Wall-clock readings ([time.time()], a float) are kept
    abstract behind the [Clock] interface, so every general statement holds
    for any interpretation of float subtraction and comparison; rational
    numbers give a concrete instance to run examples on. *)

From Stdlib Require Import ZArith QArith Ascii String List Bool Lia.
From stdpp Require Import base option list strings gmap fin_maps.

#[local] Open Scope Z_scope.
#[local] Open Scope string_scope.

(** ** Python string primitives *)

Module PyStr.

(** [c.lower()] on one ASCII character. *)
Definition lower_ascii (c : ascii) : ascii :=
  let n := nat_of_ascii c in
  if (Nat.leb 65 n && Nat.leb n 90)%bool then ascii_of_nat (n + 32) else c.

(** [s.lower()] on a string of ASCII characters. *)
Fixpoint ascii_lower (s : string) : string :=
  match s with
  | EmptyString => EmptyString
  | String c s' => String (lower_ascii c) (ascii_lower s')
  end.

(** [s.isascii()] *)
Fixpoint is_ascii (s : string) : bool :=
  match s with
  | EmptyString => true
  | String c s' => (Nat.ltb (nat_of_ascii c) 128 && is_ascii s')%bool
  end.

(** [s.startswith(p)] *)
Definition startswith (s p : string) : bool := String.prefix p s.

(** [s[n:]] for [n >= 0] *)
Fixpoint drop (n : nat) (s : string) : string :=
  match n, s with
  | O, _ => s
  | S _, EmptyString => EmptyString
  | S n', String _ s' => drop n' s'
  end.

(** [s.endswith(suf)] *)
Definition endswith (s suf : string) : bool :=
  (Nat.leb (String.length suf) (String.length s)
   && String.eqb (drop (String.length s - String.length suf) s) suf)%bool.

(** [s.split(sep)[0]] for a one-character separator: the text before the
    first occurrence of [sep], the whole of [s] when there is none. *)
Fixpoint split_head (sep : ascii) (s : string) : string :=
  match s with
  | EmptyString => EmptyString
  | String c s' => if Ascii.eqb c sep then EmptyString
                   else String c (split_head sep s')
  end.

(** [needle in hay] *)
Fixpoint contains (needle hay : string) : bool :=
  (String.prefix needle hay
   || match hay with
      | EmptyString => false
      | String _ hay' => contains needle hay'
      end)%bool.

(** [s.lower()].  Python lowers a string by the Unicode case mappings,
    which look at the neighbours of a letter (the final sigma) and may
    change the length of the text; the handlers only rest on three facts
    about it: on ASCII text it lowers the letters [A]-[Z] and nothing
    else, it lowers the text before and after a slash apart (a slash is
    neither a letter nor ignored between letters), and it brings no slash
    into a text that has none. *)
Class Lower := {
  lower : string -> string;
  lower_ascii_text s : is_ascii s = true -> lower s = ascii_lower s;
  lower_slash a b :
    lower (a ++ String "/" b) = lower a ++ String "/" (lower b);
  lower_no_slash s : contains "/" s = false -> contains "/" (lower s) = false
}.

(** The lowering of text whose letters are all ASCII. *)
Definition ascii_text : Lower.
Proof.
  refine {| lower := ascii_lower |}.
  - reflexivity.
  - intros a b; induction a as [|c a IH]; [reflexivity|].
    change (String (lower_ascii c) (ascii_lower (a ++ String "/" b))
            = String (lower_ascii c)
                (ascii_lower a ++ String "/" (ascii_lower b))).
    now rewrite IH.
  - intros s; induction s as [|c s IH]; [reflexivity|].
    change (contains "/" (String c s))
      with (String.prefix "/" (String c s) || contains "/" s)%bool.
    change (contains "/" (ascii_lower (String c s)))
      with (String.prefix "/" (String (lower_ascii c) (ascii_lower s))
            || contains "/" (ascii_lower s))%bool.
    intros [Hp Hc]%orb_false_iff; rewrite (IH Hc), orb_false_r.
    revert Hp; generalize (ascii_lower s); destruct s as [|d s];
      intros [|e r]; destruct c as [[] [] [] [] [] [] [] []];
      solve [reflexivity | discriminate].
Defined.

End PyStr.

(** ** Wall-clock arithmetic *)

(** The operations the handlers apply to [time.time()] readings. *)
Class Clock (T : Type) := {
  t_zero : T;                 (* 0.0, the default of [defaultdict(float)] *)
  t_half : T;                 (* 0.5 *)
  t_of_int : Z -> T;          (* an int operand of a float operation *)
  t_add : T -> T -> T;
  t_sub : T -> T -> T;
  t_ltb : T -> T -> bool
}.

Definition Qltb (x y : Q) : bool := (Qnum x * QDen y <? Qnum y * QDen x)%Z.

#[export] Instance Q_clock : Clock Q := {|
  t_zero := 0%Q;
  t_half := (1 # 2)%Q;
  t_of_int := inject_Z;
  t_add := Qplus;
  t_sub := Qminus;
  t_ltb := Qltb
|}.

(** ** The settings store read by [BanproHandle] *)

Module QQAdminDB.

(** Modelled from the spec: the class [QQAdminDB] of the module [..data]
    is not among the sources.  The spec gives it as a key/value accessor
    scoped by group, [Get(group, key, default)] and [Set(group, key,
    value)]; only its integer-valued keys ([word_ban_time],
    [spamming_ban_time]) are needed here. *)
Definition get (db : gmap (string * string) Z) (gid key : string)
    (default : Z) : Z :=
  match db !! (gid, key) with
  | Some v => v
  | None => default
  end.

Definition set (db : gmap (string * string) Z) (gid key : string)
    (value : Z) : gmap (string * string) Z :=
  <[(gid, key) := value]> db.

End QQAdminDB.

(** ** [core/banpro_handel.py] *)

Module BanproHandle.

(** What a handler reads from its [AiocqhttpMessageEvent]. *)
Record event := {
  group_id : string;         (* event.get_group_id() *)
  sender_id : string;        (* event.get_sender_id() *)
  self_id : string;          (* event.get_self_id() *)
  messages : nat;            (* len(event.get_messages()) *)
  ats : list string          (* get_ats(event), from ..utils *)
}.

(** The plugin configuration entries the vote handlers read.  The text
    of [random_ban_time] is taken to be two integers around a tilde. *)
Record config := {
  random_ban_time : Z * Z;   (* map(int, "lo~hi".split("~")) *)
  vote_ban_ttl : Z;          (* conf["vote_ban"]["ttl"] *)
  vote_ban_threshold : Z     (* conf["vote_ban"]["threshold"] *)
}.

(** A call [event.bot.set_group_ban(group_id, user_id, duration)].  The
    handlers catch whatever the call raises, so its outcome never reaches
    the state. *)
Record ban_call := { ban_group : string; ban_user : string; ban_duration : Z }.

(** The branch a vote handler ends in. *)
Inductive outcome :=
| NoTarget                      (* start_vote_mute: nobody was mentioned *)
| AlreadyActive                 (* start_vote_mute: line 223 *)
| Started
| NoActiveSession               (* vote_mute: line 285 *)
| Passed                        (* vote_mute: line 301 *)
| Rejected                      (* vote_mute: line 317 *)
| Progress (agree_count disagree_count threshold : Z)
| TaskNotDue                    (* the sleep of line 245 has not ended *)
| AlreadySettled                (* settle_vote: line 247 *)
| ExpiredPassed                 (* settle_vote: line 255 *)
| ExpiredRejected               (* settle_vote: line 267 *)
| Raised.                       (* an exception leaves the handler:
                                   lines 218, 252 and 268 *)

(** How the two calls end that [settle_vote] awaits outside of a [try]:
    [get_nickname] at line 252 and [event.send] at line 268 return
    ([true]) or raise ([false]). *)
Record replies := { nickname_ok : bool; send_ok : bool }.

(** Both calls return. *)
Definition all_return : replies := {| nickname_ok := true; send_ok := true |}.

(** [random.randint(lo, hi)]: [rand] is the number drawn, and an empty
    range raises [ValueError]. *)
Definition randint (range : Z * Z) (rand : Z) : option Z :=
  let '(lo, hi) := range in
  if (hi <? lo)%Z then None else Some rand.

Definition spamming_count : nat := 5.

(** [sum(votes)] on a list of booleans. *)
Definition py_sum (votes : list bool) : Z :=
  fold_right (fun b acc => Z.b2z b + acc) 0 votes.

(** [d.append(x)] on a [deque(maxlen=n)]: the oldest entry is evicted
    when the deque is full. *)
Definition deque_append {A} (maxlen : nat) (d : list A) (x : A) : list A :=
  let d' := (d ++ [x])%list in drop (length d' - maxlen) d'.

(** [l[-n:]] for [n > 0] *)
Definition last_n {A} (n : nat) (l : list A) : list A :=
  drop (length l - n) l.

(** [handle_spamming_ban_time] (lines 150-165): the store after the
    command; [time] is [None] when the command only asks for the value. *)
Definition handle_spamming_ban_time (ev : event) (time : option Z)
    (db : gmap (string * string) Z) : gmap (string * string) Z :=
  match time with
  | Some t => QQAdminDB.set db (group_id ev) "word_ban_time" t
  | None => db
  end.

(** [handle_word_ban_time] (lines 44-59) *)
Definition handle_word_ban_time (ev : event) (time : option Z)
    (db : gmap (string * string) Z) : gmap (string * string) Z :=
  match time with
  | Some t => QQAdminDB.set db (group_id ev) "word_ban_time" t
  | None => db
  end.

Section WithClock.
Context {T : Type} `{Clock T}.

Definition spamming_interval : T := t_half.

(** One entry of [vote_cache]. *)
Record vote_record := {
  target : string;
  votes : gmap string bool;
  ban_time : Z;
  expire : T;
  threshold : Z
}.

(** The mutable fields of a [BanproHandle], and the [settle_vote] tasks
    the event loop holds for it: each task is the group it was created
    for and the time its [asyncio.sleep] ends.  The two nested
    [defaultdict]s are read with their default, one map keyed by
    (group, sender) each. *)
Record handle := {
  msg_timestamps : gmap (string * string) (list T);
  last_banned_time : gmap (string * string) T;
  vote_cache : gmap string vote_record;
  settle_tasks : list (string * T)
}.

Definition get_timestamps (h : handle) (g s : string) : list T :=
  match msg_timestamps h !! (g, s) with Some d => d | None => [] end.

Definition get_last_banned (h : handle) (g s : string) : T :=
  match last_banned_time h !! (g, s) with Some t => t | None => t_zero end.

(** [[recent[i + 1] - recent[i] for i in range(count - 1)]] *)
Definition intervals (count : nat) (recent : list T) : list T :=
  map (fun i => t_sub (nth (i + 1) recent t_zero) (nth i recent t_zero))
      (seq 0 (count - 1)).

(** Lines 185-207 of [spamming_ban]: record the message and ban on a
    burst. *)
Definition record_message (ban_time : Z) (g s : string) (now : T)
    (h : handle) : handle * list ban_call :=
  let timestamps := deque_append spamming_count (get_timestamps h g s) now in
  let count := spamming_count in
  if (Nat.leb count (length timestamps)
      && forallb (fun interval => t_ltb interval spamming_interval)
           (intervals count (last_n count timestamps)))%bool
  then
    ({| msg_timestamps := <[(g, s) := []]> (msg_timestamps h);
        last_banned_time := <[(g, s) := now]> (last_banned_time h);
        vote_cache := vote_cache h;
        settle_tasks := settle_tasks h |},
     [{| ban_group := g; ban_user := s; ban_duration := ban_time |}])
  else
    ({| msg_timestamps := <[(g, s) := timestamps]> (msg_timestamps h);
        last_banned_time := last_banned_time h;
        vote_cache := vote_cache h;
        settle_tasks := settle_tasks h |},
     []).

(** [spamming_ban]; [now] is the reading of [time.time()] at line 179. *)
Definition spamming_ban (db : gmap (string * string) Z) (ev : event)
    (now : T) (h : handle) : handle * list ban_call :=
  let ban_time := QQAdminDB.get db (group_id ev) "spamming_ban_time" 0 in
  if (String.eqb (sender_id ev) (self_id ev)
      || (ban_time <=? 0)%Z
      || Nat.eqb (messages ev) 0)%bool
  then (h, [])
  else
    let last_time := get_last_banned h (group_id ev) (sender_id ev) in
    if t_ltb (t_sub now last_time) (t_of_int ban_time) then (h, [])
    else record_message ban_time (group_id ev) (sender_id ev) now h.

(** [start_vote_mute]; [rand] is the number [random.randint] draws at
    line 218 and [now] the reading of [time.time()] at line 227.  The
    draw comes before the slot is looked at, so an empty range in the
    configuration ends the handler there when no time, or 0, is asked for.
    The task created at line 274 sleeps [ttl] seconds; the announcement
    of lines 234-239 is taken to be delivered. *)
Definition start_vote_mute (conf : config) (ev : event)
    (ban_time : option Z) (rand : Z) (now : T) (h : handle)
    : handle * list ban_call * outcome :=
  match ats ev with
  | [] => (h, [], NoTarget)
  | target_id :: _ =>
    let ban_time :=
      match ban_time with
      | Some b =>
        if (b =? 0)%Z then randint (random_ban_time conf) rand else Some b
      | None => randint (random_ban_time conf) rand
      end in
    match ban_time with
    | None => (h, [], Raised)
    | Some ban_time =>
      let gid := group_id ev in
      match vote_cache h !! gid with
      | Some _ => (h, [], AlreadyActive)
      | None =>
        let expire_at := t_add now (t_of_int (vote_ban_ttl conf)) in
        ({| msg_timestamps := msg_timestamps h;
            last_banned_time := last_banned_time h;
            vote_cache :=
              <[gid := {| target := target_id;
                          votes := ∅;
                          ban_time := ban_time;
                          expire := expire_at;
                          threshold := vote_ban_threshold conf |}]>
                (vote_cache h);
            settle_tasks := (settle_tasks h ++ [(gid, expire_at)])%list |},
         [], Started)
      end
    end
  end.

(** [del self.vote_cache[group_id]] *)
Definition free_slot (gid : string) (tasks : list (string * T))
    (h : handle) : handle :=
  {| msg_timestamps := msg_timestamps h;
     last_banned_time := last_banned_time h;
     vote_cache := delete gid (vote_cache h);
     settle_tasks := tasks |}.

(** A [settle_vote] task that ends without reaching line 272: the
    sessions stay as they are, [tasks] are the tasks left. *)
Definition keep_slot (tasks : list (string * T)) (h : handle) : handle :=
  {| msg_timestamps := msg_timestamps h;
     last_banned_time := last_banned_time h;
     vote_cache := vote_cache h;
     settle_tasks := tasks |}.

(** The body of [settle_vote] after its sleep (lines 246-272), for the
    task created for group [gid]; [tasks] are the other pending tasks.
    In the branch that bans, whatever the ban or the message raises is
    caught (lines 256-266) and line 272 is reached; an exception of
    [get_nickname] (line 252) or of the message of the other branch
    (line 268) ends the task before line 272. *)
Definition settle_vote (gid : string) (tasks : list (string * T))
    (io : replies) (h : handle) : handle * list ban_call * outcome :=
  match vote_cache h !! gid with
  | None => (keep_slot tasks h, [], AlreadySettled)
  | Some record =>
    let votes := (map_to_list (votes record)).*2 in
    let agree_count := py_sum votes in
    let disagree_count := (Z.of_nat (length votes) - agree_count)%Z in
    if negb (nickname_ok io) then (keep_slot tasks h, [], Raised)
    else if (disagree_count <? agree_count)%Z then
      (free_slot gid tasks h,
       [{| ban_group := gid; ban_user := target record;
           ban_duration := ban_time record |}],
       ExpiredPassed)
    else if send_ok io then (free_slot gid tasks h, [], ExpiredRejected)
    else (keep_slot tasks h, [], Raised)
  end.

(** The event loop resumes the [i]-th pending [settle_vote] task at time
    [now], its awaited calls ending as [io] says; nothing happens while
    its sleep lasts. *)
Definition wake (i : nat) (now : T) (io : replies) (h : handle)
    : handle * list ban_call * outcome :=
  match settle_tasks h !! i with
  | None => (h, [], TaskNotDue)
  | Some (gid, due) =>
    if t_ltb now due then (h, [], TaskNotDue)
    else settle_vote gid (delete i (settle_tasks h)) io h
  end.

(** [vote_mute]; its calls to [get_nickname] and [event.send] are taken
    to return. *)
Definition vote_mute (ev : event) (agree : bool) (h : handle)
    : handle * list ban_call * outcome :=
  let gid := group_id ev in
  let voter_id := sender_id ev in
  match vote_cache h !! gid with
  | None => (h, [], NoActiveSession)
  | Some record =>
    let threshold := threshold record in
    let target_id := target record in
    let votes' := <[voter_id := agree]> (votes record) in
    let votes := (map_to_list votes').*2 in
    let agree_count := py_sum votes in
    let disagree_count := (Z.of_nat (length votes) - agree_count)%Z in
    if (threshold <=? agree_count)%Z then
      (free_slot gid (settle_tasks h) h,
       [{| ban_group := gid; ban_user := target_id;
           ban_duration := ban_time record |}],
       Passed)
    else if (threshold <=? disagree_count)%Z then
      (free_slot gid (settle_tasks h) h, [], Rejected)
    else
      ({| msg_timestamps := msg_timestamps h;
          last_banned_time := last_banned_time h;
          vote_cache :=
            <[gid := {| target := target_id;
                        votes := votes';
                        ban_time := ban_time record;
                        expire := expire record;
                        threshold := threshold |}]>
              (vote_cache h);
          settle_tasks := settle_tasks h |},
       [], Progress agree_count disagree_count threshold)
  end.

(** What can happen to the vote sessions of a handle, one handler run
    at a time. *)
Inductive action :=
| DoStart (ev : event) (ban_time : option Z) (rand : Z) (now : T)
| DoVote (ev : event) (agree : bool)
| DoWake (i : nat) (now : T) (io : replies).

Definition step (conf : config) (a : action) (h : handle)
    : handle * list ban_call * outcome :=
  match a with
  | DoStart ev ban_time rand now => start_vote_mute conf ev ban_time rand now h
  | DoVote ev agree => vote_mute ev agree h
  | DoWake i now io => wake i now io h
  end.

Fixpoint run (conf : config) (acts : list action) (h : handle)
    : handle * list (list ban_call * outcome) :=
  match acts with
  | [] => (h, [])
  | a :: rest =>
    let '(h1, bans, out) := step conf a h in
    let '(h2, log) := run conf rest h1 in
    (h2, (bans, out) :: log)
  end.

(** The flood detector over a sequence of messages of one event source,
    the settings unchanged in between. *)
Fixpoint spamming_ban_all (db : gmap (string * string) Z) (ev : event)
    (times : list T) (h : handle) : handle * list (list ban_call) :=
  match times with
  | [] => (h, [])
  | now :: rest =>
    let '(h1, bans) := spamming_ban db ev now h in
    let '(h2, log) := spamming_ban_all db ev rest h1 in
    (h2, bans :: log)
  end.

End WithClock.

Arguments vote_record : clear implicits.
Arguments handle : clear implicits.
Arguments action : clear implicits.

Section WithLower.
Context {L : PyStr.Lower}.

(** Lines 396-404 of [_is_url_whitelisted]: the domain of a URL. *)
Definition url_domain (url : string) : string :=
  let url_lower := PyStr.lower url in
  let url_lower :=
    if PyStr.startswith url_lower "http://" then PyStr.drop 7 url_lower
    else if PyStr.startswith url_lower "https://" then PyStr.drop 8 url_lower
    else url_lower in
  PyStr.split_head "/" url_lower.

(** [_is_url_whitelisted]; the loop of lines 407-412 stops at the first
    matching entry. *)
Definition _is_url_whitelisted (url : string) (whitelist : list string)
    : bool :=
  let domain := url_domain url in
  existsb
    (fun white_domain =>
       let white_domain_lower := PyStr.lower white_domain in
       (String.eqb domain white_domain_lower
        || PyStr.endswith domain ("." ++ white_domain_lower))%bool)
    whitelist.

End WithLower.

End BanproHandle.

(** ** [core/join_handle.py] *)

Module GroupJoinData.

(** The settings of one group: a dict read key by key with a default, so a
    key may be absent (a file written by hand or by an older version). *)
Record group_cfg := {
  switch : option bool;
  accept_keywords : option (list string);
  reject_keywords : option (list string);
  min_level : option Z;
  max_time : option Z;
  block_ids : option (list string)
}.

(** The entries of [config["join_config"]] the model reads. *)
Record join_config := {
  default_switch : bool;
  default_min_level : Z;
  default_max_time : Z;
  no_match_reject : bool
}.

(** [self.default_cfg] *)
Definition default_cfg (jconf : join_config) : group_cfg :=
  {| switch := Some (default_switch jconf);
     accept_keywords := Some [];
     reject_keywords := Some [];
     min_level := Some (default_min_level jconf);
     max_time := Some (default_max_time jconf);
     block_ids := Some [] |}.

(** The empty dict [{}] *)
Definition empty_cfg : group_cfg :=
  {| switch := None; accept_keywords := None; reject_keywords := None;
     min_level := None; max_time := None; block_ids := None |}.

Definition ensure_group (jconf : join_config) (group_id : string)
    (cfg : gmap string group_cfg) : gmap string group_cfg :=
  match cfg !! group_id with
  | Some _ => cfg
  | None => <[group_id := default_cfg jconf]> cfg
  end.

Definition get (cfg : gmap string group_cfg) (group_id : string) : group_cfg :=
  match cfg !! group_id with
  | Some c => c
  | None => empty_cfg
  end.

Definition get_accept_keywords (cfg : gmap string group_cfg)
    (group_id : string) : list string :=
  match accept_keywords (get cfg group_id) with Some l => l | None => [] end.

Definition get_reject_keywords (cfg : gmap string group_cfg)
    (group_id : string) : list string :=
  match reject_keywords (get cfg group_id) with Some l => l | None => [] end.

Definition get_min_level (cfg : gmap string group_cfg)
    (group_id : string) : Z :=
  match min_level (get cfg group_id) with Some n => n | None => 0 end.

Definition get_max_time (cfg : gmap string group_cfg)
    (group_id : string) : Z :=
  match max_time (get cfg group_id) with Some n => n | None => 0 end.

Definition get_block_ids (cfg : gmap string group_cfg)
    (group_id : string) : list string :=
  match block_ids (get cfg group_id) with Some l => l | None => [] end.

(** [set(group_id, block_ids=uids)]: the group is created with the default
    settings when it has none, then the one field is overwritten. *)
Definition set_block_ids (jconf : join_config) (group_id : string)
    (uids : list string) (cfg : gmap string group_cfg)
    : gmap string group_cfg :=
  let cfg := ensure_group jconf group_id cfg in
  let c := get cfg group_id in
  <[group_id := {| switch := switch c;
                   accept_keywords := accept_keywords c;
                   reject_keywords := reject_keywords c;
                   min_level := min_level c;
                   max_time := max_time c;
                   block_ids := Some uids |}]> cfg.

Definition add_block_id (jconf : join_config) (group_id uid : string)
    (cfg : gmap string group_cfg) : gmap string group_cfg :=
  set_block_ids jconf group_id (get_block_ids cfg group_id ++ [uid])%list cfg.

End GroupJoinData.

Module JoinHandle.
Import GroupJoinData.

(** The mutable state of a [JoinHandle]: the group settings and the cache
    of failed attempts. *)
Record handle := {
  db : gmap string group_cfg;
  _fail : gmap string Z
}.

(** The second component of the result of [should_approve], by the line
    that returns it. *)
Inductive reason :=
| Blacklisted                              (* line 280 *)
| LevelTooLow (user_level min_level : Z)   (* line 285 *)
| RejectKeyword                            (* line 293 *)
| AcceptKeyword                            (* line 298 *)
| AttemptLimit (max_fail : Z)              (* line 307 *)
| NoKeyword.                               (* lines 311 and 314 *)

(** [f"{group_id}_{user_id}"] *)
Definition fail_key (group_id user_id : string) : string :=
  group_id ++ "_" ++ user_id.

(** [self._fail.get(key, 0)] *)
Definition get_fail (fail : gmap string Z) (key : string) : Z :=
  match fail !! key with Some n => n | None => 0 end.

(** Lines 309-314 *)
Definition unmatched (jconf : join_config) (h : handle)
    : option bool * reason * handle :=
  if no_match_reject jconf then (Some false, NoKeyword, h)
  else (None, NoKeyword, h).

(** Lines 300-314 *)
Definition count_attempt (jconf : join_config) (group_id user_id : string)
    (h : handle) : option bool * reason * handle :=
  let max_fail := get_max_time (db h) group_id in
  if (0 <? max_fail)%Z then
    let key := fail_key group_id user_id in
    let fail' := <[key := (get_fail (_fail h) key + 1)%Z]> (_fail h) in
    if (max_fail <=? get_fail fail' key)%Z then
      (Some false, AttemptLimit max_fail,
       {| db := add_block_id jconf group_id user_id (db h); _fail := fail' |})
    else unmatched jconf {| db := db h; _fail := fail' |}
  else unmatched jconf h.

Section WithLower.
Context {L : PyStr.Lower}.

(** Lines 287-314 *)
Definition check_comment (jconf : join_config) (group_id user_id : string)
    (comment : option string) (h : handle) : option bool * reason * handle :=
  match comment with
  | Some (String a c') =>
    let lower_comment := PyStr.lower (String a c') in
    let rkws := get_reject_keywords (db h) group_id in
    if existsb (fun rk => PyStr.contains (PyStr.lower rk) lower_comment) rkws
    then (Some false, RejectKeyword,
          {| db := add_block_id jconf group_id user_id (db h);
             _fail := _fail h |})
    else
      let akws := get_accept_keywords (db h) group_id in
      if (negb (bool_decide (akws = []))
          && existsb (fun ak => PyStr.contains (PyStr.lower ak) lower_comment)
               akws)%bool
      then (Some true, AcceptKeyword, h)
      else count_attempt jconf group_id user_id h
  | _ => count_attempt jconf group_id user_id h
  end.

(** [should_approve]: [Some true] approves, [Some false] rejects and
    [None] leaves the request to the moderators. *)
Definition should_approve (jconf : join_config) (group_id user_id : string)
    (comment : option string) (user_level : option Z) (h : handle)
    : option bool * reason * handle :=
  if bool_decide (user_id ∈ get_block_ids (db h) group_id) then
    (Some false, Blacklisted, h)
  else
    let min_level := get_min_level (db h) group_id in
    match user_level with
    | Some lvl =>
      if ((0 <? min_level)%Z && (lvl <? min_level)%Z)%bool
      then (Some false, LevelTooLow lvl min_level, h)
      else check_comment jconf group_id user_id comment h
    | None => check_comment jconf group_id user_id comment h
    end.

(** Lines 360-366 of [event_monitoring]: the decision on a join request,
    and the attempt cache cleared on approval. *)
Definition decide_request (jconf : join_config) (group_id user_id : string)
    (comment : option string) (level : option Z) (h : handle)
    : option bool * reason * handle :=
  let '(approve, reason, h') :=
    should_approve jconf group_id user_id comment level h in
  match approve with
  | Some true =>
    (approve, reason,
     {| db := db h'; _fail := delete (fail_key group_id user_id) (_fail h') |})
  | _ => (approve, reason, h')
  end.

End WithLower.

End JoinHandle.

(** ** [core/join_handle.py], the rest of the settings and the events *)

Module GroupJoinDataOps.
Import GroupJoinData.

(** [set(group_id, **kwargs)]: the keyword arguments are a partial
    settings dict, [None] for a key that is not passed; [update]
    overwrites the keys that are. *)
Definition update (c kwargs : group_cfg) : group_cfg :=
  {| switch := match switch kwargs with Some v => Some v | None => switch c end;
     accept_keywords :=
       match accept_keywords kwargs with
       | Some v => Some v | None => accept_keywords c end;
     reject_keywords :=
       match reject_keywords kwargs with
       | Some v => Some v | None => reject_keywords c end;
     min_level :=
       match min_level kwargs with Some v => Some v | None => min_level c end;
     max_time :=
       match max_time kwargs with Some v => Some v | None => max_time c end;
     block_ids :=
       match block_ids kwargs with Some v => Some v | None => block_ids c end |}.

Definition set (jconf : join_config) (group_id : string) (kwargs : group_cfg)
    (cfg : gmap string group_cfg) : gmap string group_cfg :=
  let cfg := ensure_group jconf group_id cfg in
  <[group_id := update (get cfg group_id) kwargs]> cfg.

(** [remove] *)
Definition remove (group_id : string) (cfg : gmap string group_cfg)
    : gmap string group_cfg :=
  delete group_id cfg.

Definition get_switch (cfg : gmap string group_cfg) (group_id : string)
    : bool :=
  match switch (get cfg group_id) with Some b => b | None => false end.

Definition set_switch (jconf : join_config) (group_id : string) (on : bool)
    (cfg : gmap string group_cfg) : gmap string group_cfg :=
  set jconf group_id
    {| switch := Some on; accept_keywords := None; reject_keywords := None;
       min_level := None; max_time := None; block_ids := None |} cfg.

Definition set_accept_keywords (jconf : join_config) (group_id : string)
    (kws : list string) (cfg : gmap string group_cfg)
    : gmap string group_cfg :=
  set jconf group_id
    {| switch := None; accept_keywords := Some kws; reject_keywords := None;
       min_level := None; max_time := None; block_ids := None |} cfg.

Definition set_reject_keywords (jconf : join_config) (group_id : string)
    (kws : list string) (cfg : gmap string group_cfg)
    : gmap string group_cfg :=
  set jconf group_id
    {| switch := None; accept_keywords := None; reject_keywords := Some kws;
       min_level := None; max_time := None; block_ids := None |} cfg.

Definition set_min_level (jconf : join_config) (group_id : string)
    (level : Z) (cfg : gmap string group_cfg) : gmap string group_cfg :=
  set jconf group_id
    {| switch := None; accept_keywords := None; reject_keywords := None;
       min_level := Some level; max_time := None; block_ids := None |} cfg.

Definition set_max_time (jconf : join_config) (group_id : string)
    (times : Z) (cfg : gmap string group_cfg) : gmap string group_cfg :=
  set jconf group_id
    {| switch := None; accept_keywords := None; reject_keywords := None;
       min_level := None; max_time := Some times; block_ids := None |} cfg.

(** [remove_block_id] *)
Definition remove_block_id (jconf : join_config) (group_id uid : string)
    (cfg : gmap string group_cfg) : gmap string group_cfg :=
  set_block_ids jconf group_id
    (List.filter (fun i => negb (String.eqb i uid)) (get_block_ids cfg group_id))
    cfg.

End GroupJoinDataOps.

Module JoinEvents.
Import GroupJoinData GroupJoinDataOps JoinHandle.

(** The further entries of [config["join_config"]] that [event_monitoring]
    reads. *)
Record notice_config := {
  leave_notify : bool;
  leave_block : bool;
  join_ban_time : Z          (* jconf["ban_time"] *)
}.

(** The keys of [raw_message] that [event_monitoring] reads; a key that is
    absent is [None], and the ids are already passed through [str]. *)
Record raw_event := {
  post_type : option string;
  request_type : option string;
  sub_type : option string;
  notice_type : option string;
  raw_group_id : string;
  raw_user_id : string;
  raw_comment : option string;
  raw_flag : string
}.

(** The keys of the result of [get_stranger_info] that are read. *)
Record stranger_info := {
  isHideQQLevel : bool;
  qqLevel : option Z;
  info_level : option Z      (* info.get("level") *)
}.

(** A call to the client that [event_monitoring] makes on its own; the
    reason goes out on a rejection only. *)
Inductive call :=
| SetGroupAddRequest (flag : string) (approve : bool) (why : option reason)
| SetGroupBan (group_id user_id : string) (duration : Z).

(** [a or b] on two optional integers: [None] and [0] are falsy. *)
Definition py_or (a b : option Z) : option Z :=
  match a with
  | Some n => if (n =? 0)%Z then b else a
  | None => b
  end.

(** Lines 344-347 *)
Definition request_level (info : stranger_info) : option Z :=
  if isHideQQLevel info then None
  else py_or (qqLevel info) (info_level info).

Definition is_key (v : option string) (expected : string) : bool :=
  match v with
  | Some s => String.eqb s expected
  | None => false
  end.

Section WithLower.
Context {L : PyStr.Lower}.

(** [event_monitoring] for a [raw_message] that is a dict; [info] is what
    [get_stranger_info] answers and [self_id] is [event.get_self_id()].
    The notices and the welcome text it sends are left out. *)
Definition event_monitoring (jconf : join_config) (nconf : notice_config)
    (raw : raw_event) (info : stranger_info) (self_id : string) (h : handle)
    : handle * list call :=
  let group_id := raw_group_id raw in
  let h := {| db := ensure_group jconf group_id (db h); _fail := _fail h |} in
  if negb (get_switch (db h) group_id) then (h, [])
  else
    let user_id := raw_user_id raw in
    if (is_key (post_type raw) "request"
        && is_key (request_type raw) "group"
        && is_key (sub_type raw) "add")%bool
    then
      let '(approve, reason, h') :=
        decide_request jconf group_id user_id (raw_comment raw)
          (request_level info) h in
      match approve with
      | None => (h', [])
      | Some a =>
        (h', [SetGroupAddRequest (raw_flag raw) a
                (if a then None else Some reason)])
      end
    else if (leave_notify nconf
             && is_key (post_type raw) "notice"
             && is_key (notice_type raw) "group_decrease"
             && is_key (sub_type raw) "leave")%bool
    then
      if leave_block nconf
      then ({| db := add_block_id jconf group_id user_id (db h);
               _fail := _fail h |}, [])
      else (h, [])
    else if (is_key (notice_type raw) "group_increase"
             && negb (String.eqb user_id self_id))%bool
    then
      (h, if (0 <? join_ban_time nconf)%Z
          then [SetGroupBan group_id user_id (join_ban_time nconf)]
          else [])
    else (h, []).

(** A sequence of join requests of one user to one group, each with its
    comment and level, decided one after the other. *)
Fixpoint decide_all (jconf : join_config) (group_id user_id : string)
    (requests : list (option string * option Z)) (h : handle)
    : list (option bool * reason) * handle :=
  match requests with
  | [] => ([], h)
  | (comment, level) :: rest =>
    let '(approve, reason, h1) :=
      decide_request jconf group_id user_id comment level h in
    let '(log, h2) := decide_all jconf group_id user_id rest h1 in
    ((approve, reason) :: log, h2)
  end.

End WithLower.

End JoinEvents.

(** ** [core/banpro_handel.py], ban words and link recall *)

Module BanproWords.
Import BanproHandle.

(** A call to the bot made by the ban-word and link handlers. *)
Inductive bot_call :=
| DeleteMsg (message_id : Z)
| SetGroupBan (ban : ban_call).

(** [list(dict.fromkeys(l))]: the keys of a dict filled in the order of
    [l]; a key that is already there keeps its place. *)
Definition fromkeys (l : list string) : list string :=
  fold_left
    (fun keys x => if existsb (String.eqb x) keys then keys else keys ++ [x])%list
    l [].

(** Modelled from the spec: the list-valued entry [custom_ban_words] of
    the settings store of [..data], one list per group, read with the
    default [[]]. *)
Definition get_words (words : gmap string (list string)) (gid : string)
    : list string :=
  match words !! gid with Some l => l | None => [] end.

(** [handle_add_ban_words]; [new_words] is
    [message_str.partition(" ")[2].split()]. *)
Definition handle_add_ban_words (gid : string) (new_words : list string)
    (words : gmap string (list string)) : gmap string (list string) :=
  match new_words with
  | [] => words
  | _ => <[gid := fromkeys (get_words words gid ++ new_words)%list]> words
  end.

(** [check_ban_words]: whether a word was found, and the calls made. *)
Fixpoint check_ban_words (db : gmap (string * string) Z) (ev : event)
    (message_str : string) (message_id : Z) (ban_words : list string)
    : bool * list bot_call :=
  match ban_words with
  | [] => (false, [])
  | word :: rest =>
    if PyStr.contains word message_str then
      let ban_time := QQAdminDB.get db (group_id ev) "word_ban_time" 0 in
      (true,
       DeleteMsg message_id ::
       (if (0 <? ban_time)%Z
        then [SetGroupBan {| ban_group := group_id ev;
                             ban_user := sender_id ev;
                             ban_duration := ban_time |}]
        else []))
    else check_ban_words db ev message_str message_id rest
  end.

(** [on_ban_words]; [custom] is the group's [custom_ban_words],
    [builtin_enabled] its [builtin_ban] flag and [builtin] the words of
    the lexicon file. *)
Definition on_ban_words (db : gmap (string * string) Z) (ev : event)
    (message_str : string) (message_id : Z) (custom : list string)
    (builtin_enabled : bool) (builtin : list string) : list bot_call :=
  match custom, builtin_enabled with
  | [], false => []
  | _, _ =>
    let '(hit, calls) :=
      match custom with
      | [] => (false, [])
      | _ => check_ban_words db ev message_str message_id custom
      end in
    if hit then calls
    else if builtin_enabled
         then snd (check_ban_words db ev message_str message_id builtin)
         else []
  end.

Section WithLower.
Context {L : PyStr.Lower}.

(** [on_link_recall]; [url_matches] are the texts [URL_PATTERN] finds in
    the message, in order. *)
Fixpoint recall_first (message_id : Z) (url_matches whitelist : list string)
    : list bot_call :=
  match url_matches with
  | [] => []
  | url :: rest =>
    if negb (_is_url_whitelisted url whitelist) then [DeleteMsg message_id]
    else recall_first message_id rest whitelist
  end.

Definition on_link_recall (link_recall_enabled : bool) (message_id : Z)
    (url_matches whitelist : list string) : list bot_call :=
  if negb link_recall_enabled then []
  else recall_first message_id url_matches whitelist.

End WithLower.

End BanproWords.

(** ** [config.py] *)

Module PluginConfig.

(** The bounds [__init__] derives from [random_ban_time], given as the
    two integers of ["lo~hi"]: at least one second, at most a month. *)
Record ban_range := { min_ban_time : Z; max_ban_time : Z }.

Definition init_ban_range (lo hi : Z) : ban_range :=
  {| min_ban_time := Z.max lo 1; max_ban_time := Z.min hi 2592000 |}.

(** [get_ban_time]; [rand] is what [random.randint(min_ban_time,
    max_ban_time)] returns, which raises on an empty range: [None]. *)
Definition get_ban_time (r : ban_range) (seconds : option Z) (rand : Z)
    : option Z :=
  let random :=
    if (max_ban_time r <? min_ban_time r)%Z then None else Some rand in
  match seconds with
  | None => random
  | Some s =>
    if (s =? 0)%Z then random
    else Some (Z.min (Z.max s (min_ban_time r)) (max_ban_time r))
  end.

End PluginConfig.

(** ** The white-list rule as the specification words it *)

Module LinkGuardSpec.

Section WithLower.
Context {L : PyStr.Lower}.

(** Strip a leading [http://] or [https://]. *)
Definition strip_scheme (url : string) : string :=
  if PyStr.startswith url "http://" then PyStr.drop 7 url
  else if PyStr.startswith url "https://" then PyStr.drop 8 url
  else url.

(** [s] ends with [suf] *)
Definition ends_with (s suf : string) : Prop := exists pre, s = pre ++ suf.

(** The domain equals a white-list entry, lowercased, or ends with a dot
    followed by it. *)
Definition accepted (domain : string) (whitelist : list string) : Prop :=
  exists entry, In entry whitelist /\
    (domain = PyStr.lower entry
     \/ ends_with domain ("." ++ PyStr.lower entry)).

(** The domain in the order of the words: strip the scheme, keep the text
    before the first ['/'], lowercase. *)
Definition domain_of (url : string) : string :=
  PyStr.lower (PyStr.split_head "/" (strip_scheme url)).

Definition whitelisted (url : string) (whitelist : list string) : Prop :=
  accepted (domain_of url) whitelist.

(** The rule as worded, said of the test of the source. *)
Definition rule_as_worded : Prop :=
  forall url whitelist,
    BanproHandle._is_url_whitelisted url whitelist = true <->
    whitelisted url whitelist.

(** The domain with the lowering done first: lowercase, strip the scheme,
    keep the text before the first ['/'].  A scheme is then stripped
    whatever its case. *)
Definition domain_lowered_first (url : string) : string :=
  PyStr.split_head "/" (strip_scheme (PyStr.lower url)).

Definition whitelisted_lowered_first (url : string) (whitelist : list string)
    : Prop :=
  accepted (domain_lowered_first url) whitelist.

(** The scheme of the URL, if it has one, is written in lower case. *)
Definition plain_scheme (url : string) : Prop :=
  PyStr.startswith (PyStr.lower url) "http://" = PyStr.startswith url "http://"
  /\ PyStr.startswith (PyStr.lower url) "https://"
     = PyStr.startswith url "https://".

End WithLower.

End LinkGuardSpec.

(** ** The admission rules as the specification words them *)

Module JoinSpec.

Section WithLower.
Context {L : PyStr.Lower}.

(** The keyword occurs in the comment, whatever the case of either: the
    lowered keyword is a part of the lowered comment. *)
Definition contains_ci (kw comment : string) : Prop :=
  exists pre post, PyStr.lower comment = pre ++ PyStr.lower kw ++ post.

(** The comment is present, not empty, and contains one of the keywords. *)
Definition matches (kws : list string) (comment : option string) : Prop :=
  exists c kw,
    comment = Some c /\ c <> EmptyString /\ In kw kws /\ contains_ci kw c.

End WithLower.

(** The level gate lets the request through: no minimum is set, the level
    is hidden, or the level reaches the minimum. *)
Definition passes_level (min_level : Z) (level : option Z) : Prop :=
  match level with
  | Some lvl => ~ (0 < min_level /\ lvl < min_level)
  | None => True
  end.

End JoinSpec.

(** ** The flood rule as the specification words it *)

Module FloodSpec.
Import BanproHandle.

Section WithClock.
Context {T : Type} `{Clock T}.

(** Every gap between two consecutive timestamps of [recent] is strictly
    below the spamming interval. *)
Definition gaps_below (recent : list T) : Prop :=
  forall i, (i + 1 < length recent)%nat ->
    t_ltb (t_sub (nth (i + 1) recent t_zero) (nth i recent t_zero))
      spamming_interval = true.

(** Some gap between two consecutive timestamps of [recent] is not below
    the spamming interval. *)
Definition wide_gap (recent : list T) : Prop :=
  exists i, (i + 1 < length recent)%nat /\
    t_ltb (t_sub (nth (i + 1) recent t_zero) (nth i recent t_zero))
      spamming_interval = false.

(** [now] is less than [duration] seconds after [last]. *)
Definition within (duration : Z) (last now : T) : Prop :=
  t_ltb (t_sub now last) (t_of_int duration) = true.

(** The detector is switched on for the event: the sender is not the bot,
    a positive ban duration is configured, the message is not empty. *)
Definition observed (db : gmap (string * string) Z) (ev : event) : Prop :=
  sender_id ev <> self_id ev
  /\ 0 < QQAdminDB.get db (group_id ev) "spamming_ban_time" 0
  /\ messages ev <> O.

(** The reading of the cooldown under which the duration compared is the
    one of the ban that started it: after a ban of [d] seconds triggered at
    [t0], an observation less than [d] seconds later is dropped, whatever
    duration the settings hold by then. *)
Definition cooldown_uses_trigger_duration : Prop :=
  forall db_then db_now ev t0 now h h' d,
    observed db_then ev -> observed db_now ev ->
    spamming_ban db_then ev t0 h
    = (h', [{| ban_group := group_id ev; ban_user := sender_id ev;
               ban_duration := d |}]) ->
    within d t0 now ->
    spamming_ban db_now ev now h' = (h', []).

End WithClock.

End FloodSpec.

(** ** The vote rule as the specification words it *)

Module VoteSpec.

(** The number of voters whose stance is [stance]. *)
Definition count_votes (stance : bool) (votes : gmap string bool) : Z :=
  Z.of_nat (length (List.filter (Bool.eqb stance) (map_to_list votes).*2)).



End VoteSpec.

(** ** Ban words in plain words *)

Module WordsSpec.

(** The word occurs in the message, letter for letter. *)
Definition occurs (word message : string) : Prop :=
  exists pre post, message = pre ++ word ++ post.

(** The message holds a custom ban word, or the built-in list is enabled
    and the message holds one of its words. *)
Definition hit (message : string) (custom : list string)
    (builtin_enabled : bool) (builtin : list string) : Prop :=
  (exists w, In w custom /\ occurs w message)
  \/ (builtin_enabled = true /\ exists w, In w builtin /\ occurs w message).

(** The keys of a dict while it is filled from [l], [keys] being there
    already. *)
Definition fill (keys l : list string) : list string :=
  fold_left
    (fun keys x => if existsb (String.eqb x) keys then keys else keys ++ [x])%list
    l keys.

End WordsSpec.

(** ** The windows of the flood detector *)

Module FloodInv.
Import BanproHandle.

(** No window holds more timestamps than a [deque(maxlen=5)] can. *)
Definition windows_bounded {T : Type} (h : handle T) : Prop :=
  forall k d, msg_timestamps h !! k = Some d ->
    (length d <= spamming_count)%nat.

End FloodInv.

(** ** Sample configurations *)

Module Scenario.
Import GroupJoinData.

Definition jconf : join_config :=
  {| default_switch := true; default_min_level := 0;
     default_max_time := 3; no_match_reject := false |}.

Definition group100 : group_cfg :=
  {| switch := Some true;
     accept_keywords := Some ["friend"];
     reject_keywords := Some ["spam"];
     min_level := Some 10;
     max_time := Some 3;
     block_ids := Some ["666"] |}.

(** One configured group, no failed attempt yet. *)
Definition join0 : JoinHandle.handle :=
  {| JoinHandle.db := {[ "100" := group100 ]}; JoinHandle._fail := ∅ |}.

(** The same group, user 42 having failed twice. *)
Definition join2 : JoinHandle.handle :=
  {| JoinHandle.db := {[ "100" := group100 ]};
     JoinHandle._fail := {[ "100_42" := 2 ]} |}.

(** A burst in group 100: user 42 sent four messages 0.1 s apart, the
    flood ban set to 60 s. *)
Definition flood_db : gmap (string * string) Z :=
  {[ ("100", "spamming_ban_time") := 60 ]}.

Definition flood_ev : BanproHandle.event :=
  {| BanproHandle.group_id := "100"; BanproHandle.sender_id := "42";
     BanproHandle.self_id := "1"; BanproHandle.messages := 1%nat;
     BanproHandle.ats := [] |}.

Definition flood_h0 : BanproHandle.handle Q :=
  {| BanproHandle.msg_timestamps :=
       {[ ("100", "42") := [1000; 10001 # 10; 10002 # 10; 10003 # 10]%Q ]};
     BanproHandle.last_banned_time := ∅;
     BanproHandle.vote_cache := ∅;
     BanproHandle.settle_tasks := [] |}.

(** The handle once the fifth message, at 1000.4 s, triggered the ban. *)
Definition flood_h1 : BanproHandle.handle Q :=
  {| BanproHandle.msg_timestamps := {[ ("100", "42") := [] ]};
     BanproHandle.last_banned_time := {[ ("100", "42") := (10004 # 10)%Q ]};
     BanproHandle.vote_cache := ∅;
     BanproHandle.settle_tasks := [] |}.

(** The flood ban meanwhile set to 5 s. *)
Definition flood_db5 : gmap (string * string) Z :=
  {[ ("100", "spamming_ban_time") := 5 ]}.

(** A vote in group 100: two agreeing votes pass it, the settlement comes
    after 60 s. *)
Definition vote_conf : BanproHandle.config :=
  {| BanproHandle.random_ban_time := (30, 300);
     BanproHandle.vote_ban_ttl := 60;
     BanproHandle.vote_ban_threshold := 2 |}.


(** The replies when the message of line 268 cannot be sent. *)
Definition send_fails : BanproHandle.replies :=
  {| BanproHandle.nickname_ok := true; BanproHandle.send_ok := false |}.

(** A message of [sender] in group 100 that mentions [ats]. *)
Definition msg (sender : string) (ats : list string) : BanproHandle.event :=
  {| BanproHandle.group_id := "100"; BanproHandle.sender_id := sender;
     BanproHandle.self_id := "1"; BanproHandle.messages := 1%nat;
     BanproHandle.ats := ats |}.

Definition idle : BanproHandle.handle Q :=
  {| BanproHandle.msg_timestamps := ∅;
     BanproHandle.last_banned_time := ∅;
     BanproHandle.vote_cache := ∅;
     BanproHandle.settle_tasks := [] |}.

(** A vote against user 7 starts at 0 s and passes early; a vote against
    user 8 starts at 20 s and has one agreeing vote. *)
Definition two_votes : list (BanproHandle.action Q) :=
  [ BanproHandle.DoStart (msg "11" ["7"]) (Some 600) 0 0%Q;
    BanproHandle.DoVote (msg "12" []) true;
    BanproHandle.DoVote (msg "13" []) true;
    BanproHandle.DoStart (msg "11" ["8"]) (Some 300) 0 20%Q;
    BanproHandle.DoVote (msg "12" []) true ].

(** The vote against user 8 as it stands after [two_votes]. *)
Definition vote_on_8 : BanproHandle.vote_record Q :=
  {| BanproHandle.target := "8";
     BanproHandle.votes := {[ "12" := true ]};
     BanproHandle.ban_time := 300;
     BanproHandle.expire := (20 + inject_Z 60)%Q;
     BanproHandle.threshold := 2 |}.

(** A vote against user 7 on which nobody votes. *)
Definition silent_vote : list (BanproHandle.action Q) :=
  [ BanproHandle.DoStart (msg "11" ["7"]) (Some 600) 0 0%Q ].

(** That vote as it stands at its expiry. *)
Definition vote_on_7 : BanproHandle.vote_record Q :=
  {| BanproHandle.target := "7";
     BanproHandle.votes := ∅;
     BanproHandle.ban_time := 600;
     BanproHandle.expire := (0 + inject_Z 60)%Q;
     BanproHandle.threshold := 2 |}.

End Scenario.

(** * Properties *)

(** ** Strings *)

Section Strings.
Import PyStr.
Context {L : Lower}.

Lemma app_String c s t : String c s ++ t = String c (s ++ t).
Proof. reflexivity. Qed.

Lemma length_app_string s1 s2 :
  String.length (s1 ++ s2) = (String.length s1 + String.length s2)%nat.
Proof.
  induction s1 as [|c s1 IH]; [reflexivity|].
  rewrite app_String; simpl; now rewrite IH.
Qed.

Lemma drop_app_length pre s : drop (String.length pre) (pre ++ s) = s.
Proof.
  induction pre as [|c pre IH]; [reflexivity|].
  rewrite app_String; simpl; exact IH.
Qed.

Lemma drop_split n s : exists pre, s = pre ++ drop n s.
Proof.
  revert s; induction n as [|n IH]; intros s.
  - exists EmptyString; reflexivity.
  - destruct s as [|c s]; [exists EmptyString; reflexivity|].
    destruct (IH s) as [pre Hpre].
    exists (String c pre); rewrite app_String; simpl; now rewrite <- Hpre.
Qed.

Lemma endswith_spec s suf :
  endswith s suf = true <-> exists pre, s = pre ++ suf.
Proof.
  unfold endswith; split.
  - intros [_ Heq]%andb_true_iff.
    apply String.eqb_eq in Heq.
    destruct (drop_split (String.length s - String.length suf) s) as [pre Hpre].
    exists pre; congruence.
  - intros [pre ->].
    rewrite length_app_string.
    replace (String.length pre + String.length suf - String.length suf)%nat
      with (String.length pre) by lia.
    rewrite drop_app_length, String.eqb_refl, andb_true_r.
    apply Nat.leb_le; lia.
Qed.

Lemma prefix_spec p s :
  String.prefix p s = true <-> exists rest, s = p ++ rest.
Proof.
  revert s; induction p as [|c p IH]; intros s.
  - destruct s; simpl; split; eauto.
  - destruct s as [|d s]; simpl.
    + split; [discriminate | intros [r Hr]; rewrite app_String in Hr; discriminate].
    + destruct (ascii_dec c d) as [Heq|Hne].
      * rewrite IH; split; intros [r Hr]; exists r;
          rewrite app_String in *; congruence.
      * split; [discriminate | intros [r Hr]; rewrite app_String in Hr; congruence].
Qed.

Lemma contains_spec needle hay :
  contains needle hay = true <->
  exists pre post, hay = pre ++ needle ++ post.
Proof.
  induction hay as [|c hay IH].
  - change (contains needle EmptyString)
      with (String.prefix needle EmptyString || false)%bool.
    rewrite orb_false_r, prefix_spec; split.
    + intros [r Hr]; exists EmptyString, r; exact Hr.
    + intros [[|a pre] [post Hp]]; [eauto | rewrite app_String in Hp; discriminate].
  - change (contains needle (String c hay))
      with (String.prefix needle (String c hay) || contains needle hay)%bool.
    rewrite orb_true_iff, IH, prefix_spec; split.
    + intros [[r Hr] | (pre & post & Hp)].
      * exists EmptyString, r; exact Hr.
      * exists (String c pre), post; rewrite app_String; congruence.
    + intros [[|a pre] [post Hp]].
      * left; exists post; exact Hp.
      * right; exists pre, post; rewrite app_String in Hp; congruence.
Qed.

Lemma contains_slash_cons c s :
  contains "/" (String c s) = (Ascii.eqb c "/" || contains "/" s)%bool.
Proof.
  change (contains "/" (String c s))
    with (String.prefix "/" (String c s) || contains "/" s)%bool.
  f_equal.
  destruct (Ascii.eqb_spec c "/") as [->|Hne].
  - destruct s; reflexivity.
  - apply not_true_iff_false; intros [rest E]%prefix_spec.
    rewrite app_String in E; congruence.
Qed.

Lemma split_head_no_slash s : contains "/" (split_head "/" s) = false.
Proof.
  induction s as [|c s IH]; [reflexivity|].
  simpl; destruct (Ascii.eqb c "/") eqn:E; [reflexivity|].
  now rewrite contains_slash_cons, E, IH.
Qed.

Lemma split_head_whole s : contains "/" s = false -> split_head "/" s = s.
Proof.
  induction s as [|c s IH]; [reflexivity|].
  rewrite contains_slash_cons; intros [Hc Hs]%orb_false_iff.
  simpl; now rewrite Hc, IH.
Qed.

Lemma split_head_host host rest :
  contains "/" host = false ->
  split_head "/" (host ++ String "/" rest) = host.
Proof.
  induction host as [|c host IH]; [reflexivity|].
  rewrite contains_slash_cons; intros [Hc Hs]%orb_false_iff.
  rewrite app_String; simpl; now rewrite Hc, IH.
Qed.

Lemma split_head_cut s :
  contains "/" s = true ->
  exists rest, s = split_head "/" s ++ String "/" rest.
Proof.
  induction s as [|c s IH]; [discriminate|].
  rewrite contains_slash_cons; simpl.
  destruct (Ascii.eqb_spec c "/") as [->|Hne]; simpl.
  - intros _; exists s; reflexivity.
  - intros [rest E]%IH; exists rest; rewrite app_String; congruence.
Qed.

(** Cutting at the first slash and lowering can be done in either order. *)
Lemma lower_split_head s :
  lower (split_head "/" s) = split_head "/" (lower s).
Proof.
  destruct (contains "/" s) eqn:E.
  - destruct (split_head_cut s E) as [rest Hs].
    rewrite Hs at 2; rewrite lower_slash.
    symmetry; apply split_head_host, lower_no_slash, split_head_no_slash.
  - rewrite (split_head_whole s E).
    symmetry; apply split_head_whole, lower_no_slash, E.
Qed.

(** A scheme written in lower case stays in front of the lowered URL. *)
Lemma lower_https rest : lower ("https://" ++ rest) = "https://" ++ lower rest.
Proof.
  change ("https://" ++ rest)
    with ("https:" ++ String "/" (EmptyString ++ String "/" rest)).
  rewrite (lower_slash "https:"), (lower_slash EmptyString).
  rewrite (lower_ascii_text "https:"), (lower_ascii_text EmptyString)
    by reflexivity.
  reflexivity.
Qed.

Lemma lower_http rest : lower ("http://" ++ rest) = "http://" ++ lower rest.
Proof.
  change ("http://" ++ rest)
    with ("http:" ++ String "/" (EmptyString ++ String "/" rest)).
  rewrite (lower_slash "http:"), (lower_slash EmptyString).
  rewrite (lower_ascii_text "http:"), (lower_ascii_text EmptyString)
    by reflexivity.
  reflexivity.
Qed.

End Strings.

(** ** Link white list *)

Section LinkGuard.
Import PyStr BanproHandle LinkGuardSpec.
Context {L : Lower}.

(** The source lowercases first and strips and cuts afterwards. *)
Lemma url_domain_spec url : url_domain url = domain_lowered_first url.
Proof. reflexivity. Qed.

Lemma is_url_whitelisted_iff url whitelist :
  _is_url_whitelisted url whitelist = true <->
  whitelisted_lowered_first url whitelist.
Proof.
  unfold _is_url_whitelisted, whitelisted_lowered_first, accepted, ends_with.
  rewrite existsb_exists.
  change (domain_lowered_first url) with (url_domain url).
  split; intros (entry & Hin & Hm); exists entry; (split; [exact Hin|]).
  - apply orb_true_iff in Hm as [Heq | Hsuf].
    + left; now apply String.eqb_eq.
    + right; now apply endswith_spec.
  - apply orb_true_iff; destruct Hm as [Heq | Hsuf].
    + left; now apply String.eqb_eq.
    + right; now apply endswith_spec.
Qed.

(** For a URL whose scheme is in lower case, or that has none, the order
    of lowering, stripping and cutting does not matter. *)
Lemma domain_of_plain url :
  plain_scheme url -> domain_of url = domain_lowered_first url.
Proof.
  intros [H1 H2]; unfold domain_of, domain_lowered_first.
  rewrite lower_split_head; f_equal.
  unfold strip_scheme; rewrite H1, H2.
  destruct (startswith url "http://") eqn:E1.
  { apply prefix_spec in E1 as [rest ->]; rewrite lower_http.
    change 7%nat with (String.length "http://").
    now rewrite !drop_app_length. }
  destruct (startswith url "https://") eqn:E2; [|reflexivity].
  apply prefix_spec in E2 as [rest ->]; rewrite lower_https.
  change 8%nat with (String.length "https://").
  now rewrite !drop_app_length.
Qed.

(** C9 as amended: a URL is judged white-listed exactly when its domain -
    the URL lowercased, then a leading [http://] or [https://] stripped,
    then cut at the first slash - equals a lowercased white-list entry or
    ends with a dot followed by that entry.  For a URL whose scheme is in
    lower case or absent this is the rule in the order of the words
    (strip, cut, lowercase).  [https://sub.example.com/path] is
    white-listed by any list holding [example.com],
    [https://evilexample.com] is not white-listed by [example.com], and
    letters in upper case, in the scheme too, do not matter. *)
Theorem link_whitelist_rule :
  (forall url whitelist,
      _is_url_whitelisted url whitelist = true <->
      whitelisted_lowered_first url whitelist)
  /\ (forall url whitelist,
         plain_scheme url ->
         (_is_url_whitelisted url whitelist = true <->
          whitelisted url whitelist))
  /\ (forall before after,
         _is_url_whitelisted "https://sub.example.com/path"
           (before ++ "example.com" :: after)%list = true)
  /\ _is_url_whitelisted "https://evilexample.com" ["example.com"] = false
  /\ _is_url_whitelisted "HTTP://Sub.Example.COM/Path" ["EXAMPLE.com"] = true.
Proof.
  split; [exact is_url_whitelisted_iff|].
  split; [|split; [|split]].
  - intros url whitelist Hp.
    rewrite is_url_whitelisted_iff.
    unfold whitelisted, whitelisted_lowered_first.
    now rewrite (domain_of_plain url Hp).
  - intros before after.
    apply is_url_whitelisted_iff.
    exists "example.com"; split.
    + apply in_or_app; right; left; reflexivity.
    + right; exists "sub"; unfold domain_lowered_first.
      rewrite !lower_ascii_text by reflexivity; reflexivity.
  - unfold _is_url_whitelisted, url_domain, existsb.
    rewrite !lower_ascii_text by reflexivity; reflexivity.
  - unfold _is_url_whitelisted, url_domain, existsb.
    rewrite !lower_ascii_text by reflexivity; reflexivity.
Qed.

End LinkGuard.

Section LinkGuardExamples.
Import PyStr BanproHandle LinkGuardSpec.
#[local] Existing Instance ascii_text.

(** C9 fails as worded: the scheme of [HTTP://Example.com/x] is not
    stripped as it is written, so that the text before the first slash is
    [HTTP:], which no entry matches; the source lowercases first, strips
    the scheme and finds the domain [example.com]. *)
Lemma link_rule_as_worded_counterexample :
  (_is_url_whitelisted "HTTP://Example.com/x" ["example.com"] = true
   /\ url_domain "HTTP://Example.com/x" = "example.com"
   /\ domain_of "HTTP://Example.com/x" = "http:")
  /\ ~ rule_as_worded.
Proof.
  split; [repeat split; reflexivity|].
  intros Hrule.
  destruct (Hrule "HTTP://Example.com/x" ["example.com"]) as [Hw _].
  destruct (Hw eq_refl) as (entry & [<-|[]] & [E|[pre E]]).
  - discriminate E.
  - apply (f_equal String.length) in E.
    rewrite length_app_string in E.
    change (5 = String.length pre + 12)%nat in E; lia.
Qed.

End LinkGuardExamples.

(** ** Join admission *)

Section Join.
Import PyStr GroupJoinData JoinHandle JoinSpec.
Context {L : Lower}.

Lemma existsb_contains_iff kws c :
  c <> EmptyString ->
  existsb (fun kw => contains (lower kw) (lower c)) kws = true <->
  matches kws (Some c).
Proof.
  intros Hc; rewrite existsb_exists; unfold matches, contains_ci; split.
  - intros (kw & Hin & Hk); apply contains_spec in Hk.
    exists c, kw; auto.
  - intros (c' & kw & [= <-] & _ & Hin & Hk).
    exists kw; split; [exact Hin | now apply contains_spec].
Qed.

Lemma matches_falsy kws comment :
  match comment with Some (String _ _) => False | _ => True end ->
  ~ matches kws comment.
Proof.
  intros Hf (c & kw & -> & Hc & _); destruct c; [congruence | exact Hf].
Qed.

Lemma check_comment_accept jconf g u comment h :
  ~ matches (get_reject_keywords (db h) g) comment ->
  matches (get_accept_keywords (db h) g) comment ->
  check_comment jconf g u comment h = (Some true, AcceptKeyword, h).
Proof.
  intros Hr Ha.
  destruct Ha as (c & kw & -> & Hc & Hin & Hk).
  assert (Ha : matches (get_accept_keywords (db h) g) (Some c))
    by (exists c, kw; auto).
  destruct c as [|a c']; [congruence|].
  unfold check_comment.
  destruct (existsb _ (get_reject_keywords (db h) g)) eqn:Er.
  - exfalso; apply Hr; now apply existsb_contains_iff.
  - apply existsb_contains_iff in Ha; [|exact Hc]; rewrite Ha.
    case_bool_decide as Hnil; [|reflexivity].
    rewrite Hnil in Hin; destruct Hin.
Qed.

Lemma check_comment_unmatched jconf g u comment h :
  ~ matches (get_reject_keywords (db h) g) comment ->
  ~ matches (get_accept_keywords (db h) g) comment ->
  check_comment jconf g u comment h = count_attempt jconf g u h.
Proof.
  intros Hr Ha; unfold check_comment.
  destruct comment as [[|a c']|]; try reflexivity.
  destruct (existsb _ (get_reject_keywords (db h) g)) eqn:Er.
  - exfalso; apply Hr; now apply existsb_contains_iff.
  - destruct (existsb _ (get_accept_keywords (db h) g)) eqn:Ea.
    + exfalso; apply Ha; now apply existsb_contains_iff.
    + now rewrite andb_false_r.
Qed.

Lemma should_approve_past_gate jconf g u comment level h :
  ~ In u (get_block_ids (db h) g) ->
  passes_level (get_min_level (db h) g) level ->
  should_approve jconf g u comment level h = check_comment jconf g u comment h.
Proof.
  intros Hb Hl; unfold should_approve.
  case_bool_decide as Hin; [exfalso; apply Hb; now apply list_elem_of_In|].
  destruct level as [lvl|]; [|reflexivity].
  destruct (_ && _)%bool eqn:E; [|reflexivity].
  exfalso; apply Hl; apply andb_true_iff in E as [H1 H2]; lia.
Qed.

Lemma count_attempt_never_approves jconf g u h :
  fst (fst (count_attempt jconf g u h)) <> Some true.
Proof.
  unfold count_attempt, unmatched.
  repeat match goal with |- context [if ?b then _ else _] => destruct b end;
    simpl; congruence.
Qed.

Lemma decide_request_unmatched jconf g u comment level h :
  ~ In u (get_block_ids (db h) g) ->
  passes_level (get_min_level (db h) g) level ->
  ~ matches (get_reject_keywords (db h) g) comment ->
  ~ matches (get_accept_keywords (db h) g) comment ->
  decide_request jconf g u comment level h = count_attempt jconf g u h.
Proof.
  intros Hb Hl Hr Ha; unfold decide_request.
  rewrite should_approve_past_gate, check_comment_unmatched by assumption.
  pose proof (count_attempt_never_approves jconf g u h) as Hn.
  destruct (count_attempt jconf g u h) as [[[[|]|] r] h']; simpl in *;
    congruence.
Qed.

Lemma get_fail_insert fail key n : get_fail (<[key := n]> fail) key = n.
Proof. unfold get_fail; now rewrite lookup_insert_eq. Qed.


Lemma add_block_id_blocks jconf g u cfg :
  In u (get_block_ids (add_block_id jconf g u cfg) g).
Proof.
  unfold add_block_id, set_block_ids, get_block_ids at 1, get at 1.
  rewrite lookup_insert_eq; simpl.
  apply in_or_app; right; left; reflexivity.
Qed.

(** An attempt that stays below the limit is left to the moderators (or
    rejected, when [no_match_reject] is set) and counted. *)
Lemma count_attempt_below jconf g u h :
  0 < get_max_time (db h) g ->
  get_fail (_fail h) (fail_key g u) + 1 < get_max_time (db h) g ->
  count_attempt jconf g u h =
  unmatched jconf
    {| db := db h;
       _fail := <[fail_key g u := get_fail (_fail h) (fail_key g u) + 1]>
                  (_fail h) |}.
Proof.
  intros Hpos Hlt; unfold count_attempt.
  rewrite get_fail_insert.
  destruct (0 <? _)%Z eqn:E1; [|lia].
  destruct (_ <=? _)%Z eqn:E2; [lia | reflexivity].
Qed.

Lemma count_attempt_limit jconf g u h :
  0 < get_max_time (db h) g ->
  get_max_time (db h) g <= get_fail (_fail h) (fail_key g u) + 1 ->
  count_attempt jconf g u h =
  (Some false, AttemptLimit (get_max_time (db h) g),
   {| db := add_block_id jconf g u (db h);
      _fail := <[fail_key g u := get_fail (_fail h) (fail_key g u) + 1]>
                 (_fail h) |}).
Proof.
  intros Hpos Hle; unfold count_attempt.
  rewrite get_fail_insert.
  destruct (0 <? _)%Z eqn:E1; [|lia].
  destruct (_ <=? _)%Z eqn:E2; [reflexivity | lia].
Qed.

Lemma matches_iff_existsb kws comment :
  matches kws comment <->
  match comment with
  | Some (String a c) =>
    existsb (fun kw => contains (lower kw) (lower (String a c))) kws
  | _ => false
  end = true.
Proof.
  destruct comment as [[|a c]|].
  - split; [intros H; now apply matches_falsy in H | discriminate].
  - symmetry; now apply existsb_contains_iff.
  - split; [intros H; now apply matches_falsy in H | discriminate].
Qed.

Lemma not_matches_existsb kws comment :
  match comment with
  | Some (String a c) =>
    existsb (fun kw => contains (lower kw) (lower (String a c))) kws
  | _ => false
  end = false ->
  ~ matches kws comment.
Proof. intros E M; apply matches_iff_existsb in M; congruence. Qed.

(** C7: a user on the group's block list is rejected as black-listed
    whatever the comment and the level, and neither the settings nor the
    attempt cache change. *)
Theorem blacklisted_is_rejected jconf g u comment level h :
  In u (get_block_ids (db h) g) ->
  should_approve jconf g u comment level h = (Some false, Blacklisted, h)
  /\ decide_request jconf g u comment level h = (Some false, Blacklisted, h).
Proof.
  intros Hin.
  assert (E : should_approve jconf g u comment level h
              = (Some false, Blacklisted, h)).
  { unfold should_approve.
    case_bool_decide as Hb; [reflexivity|].
    exfalso; apply Hb; now apply list_elem_of_In. }
  split; [exact E | unfold decide_request; now rewrite E].
Qed.


(** C3: with three attempts allowed, no automatic rejection of unmatched
    requests, and a user who is not on the block list, passes the level
    gate and whose comments match no keyword, three requests in a row -
    counted from no failed attempt - are left to the moderators twice and
    rejected the third time, after which the user is on the block list. *)
Theorem three_attempts jconf g u c1 l1 c2 l2 c3 l3 h :
  get_max_time (db h) g = 3 ->
  no_match_reject jconf = false ->
  ~ In u (get_block_ids (db h) g) ->
  get_fail (_fail h) (fail_key g u) = 0 ->
  (forall c l, In (c, l) [(c1, l1); (c2, l2); (c3, l3)] ->
     passes_level (get_min_level (db h) g) l
     /\ ~ matches (get_reject_keywords (db h) g) c
     /\ ~ matches (get_accept_keywords (db h) g) c) ->
  exists h1 h2 h3,
    decide_request jconf g u c1 l1 h = (None, NoKeyword, h1)
    /\ decide_request jconf g u c2 l2 h1 = (None, NoKeyword, h2)
    /\ decide_request jconf g u c3 l3 h2 = (Some false, AttemptLimit 3, h3)
    /\ In u (get_block_ids (db h3) g).
Proof.
  intros Hmax Hnm Hb Hf Hreq.
  set (h1 := {| db := db h; _fail := <[fail_key g u := 1]> (_fail h) |}).
  set (h2 := {| db := db h; _fail := <[fail_key g u := 2]> (_fail h1) |}).
  set (h3 := {| db := add_block_id jconf g u (db h);
                _fail := <[fail_key g u := 3]> (_fail h2) |}).
  exists h1, h2, h3.
  destruct (Hreq c1 l1) as (Hl1 & Hr1 & Ha1); [simpl; auto|].
  destruct (Hreq c2 l2) as (Hl2 & Hr2 & Ha2); [simpl; auto|].
  destruct (Hreq c3 l3) as (Hl3 & Hr3 & Ha3); [simpl; auto|].
  assert (F1 : get_fail (_fail h1) (fail_key g u) = 1)
    by apply get_fail_insert.
  assert (F2 : get_fail (_fail h2) (fail_key g u) = 2)
    by apply get_fail_insert.
  assert (D1 : db h1 = db h) by reflexivity.
  assert (D2 : db h2 = db h) by reflexivity.
  repeat split.
  - rewrite decide_request_unmatched by assumption.
    rewrite count_attempt_below by (rewrite ?Hmax, ?Hf; lia).
    unfold unmatched; rewrite Hnm, Hf; reflexivity.
  - rewrite decide_request_unmatched by (rewrite D1; assumption).
    rewrite count_attempt_below by (rewrite ?D1, ?Hmax, ?F1; lia).
    unfold unmatched; rewrite Hnm, F1; reflexivity.
  - rewrite decide_request_unmatched by (rewrite D2; assumption).
    rewrite count_attempt_limit by (rewrite ?D2, ?Hmax, ?F2; lia).
    rewrite F2, D2, Hmax; reflexivity.
  - apply add_block_id_blocks.
Qed.

End Join.

Section JoinExamples.
Import PyStr GroupJoinData JoinHandle JoinSpec.
#[local] Existing Instance ascii_text.

Lemma blacklisted_is_rejected_witness :
  In "666" (get_block_ids (db Scenario.join0) "100")
  /\ decide_request Scenario.jconf "100" "666" (Some "a friend") (Some 64)
       Scenario.join0
     = (Some false, Blacklisted, Scenario.join0).
Proof.
  split; [left; reflexivity|].
  apply (blacklisted_is_rejected Scenario.jconf "100" "666" (Some "a friend")
           (Some 64) Scenario.join0).
  left; reflexivity.
Defined.


Lemma three_attempts_witness :
  exists h1 h2 h3,
    decide_request Scenario.jconf "100" "42" None None Scenario.join0
    = (None, NoKeyword, h1)
    /\ decide_request Scenario.jconf "100" "42" (Some EmptyString) (Some 10) h1
       = (None, NoKeyword, h2)
    /\ decide_request Scenario.jconf "100" "42" (Some "hello") (Some 50) h2
       = (Some false, AttemptLimit 3, h3)
    /\ In "42" (get_block_ids (db h3) "100").
Proof.
  apply (three_attempts Scenario.jconf "100" "42" None None
           (Some EmptyString) (Some 10) (Some "hello") (Some 50)
           Scenario.join0).
  - reflexivity.
  - reflexivity.
  - intros [E|[]]; discriminate E.
  - reflexivity.
  - intros c l [E|[E|[E|[]]]]; injection E as <- <-;
      (split; [vm_compute; try intros [_ E']; try discriminate E'; exact I
              | split; apply not_matches_existsb; reflexivity]).
Defined.

End JoinExamples.


(** ** Flood detector *)

Section Flood.
Import BanproHandle FloodSpec.
Context {T : Type} `{Clock T}.

Lemma forallb_intervals (f : T -> bool) count (recent : list T) :
  forallb f (intervals count recent) = true <->
  forall i, (i < count - 1)%nat ->
    f (t_sub (nth (i + 1) recent t_zero) (nth i recent t_zero)) = true.
Proof.
  unfold intervals; rewrite forallb_forall; split.
  - intros Hall i Hi; apply Hall, in_map_iff.
    exists i; split; [reflexivity | apply in_seq; lia].
  - intros Hall x (i & <- & Hi)%in_map_iff.
    apply Hall; apply in_seq in Hi; lia.
Qed.

Lemma length_last_n {A} n (l : list A) :
  (n <= length l)%nat -> length (last_n n l) = n.
Proof. intros Hn; unfold last_n; rewrite length_drop; lia. Qed.

(** The burst test of lines 188-191 says what the specification says. *)
Lemma burst_test_true (timestamps : list T) :
  (Nat.leb spamming_count (length timestamps)
   && forallb (fun interval => t_ltb interval spamming_interval)
        (intervals spamming_count (last_n spamming_count timestamps)))%bool
  = true <->
  (spamming_count <= length timestamps)%nat
  /\ gaps_below (last_n spamming_count timestamps).
Proof.
  rewrite andb_true_iff, Nat.leb_le, forallb_intervals; unfold gaps_below.
  split; intros [Hlen Hg]; (split; [exact Hlen|]); intros i Hi; apply Hg.
  - rewrite length_last_n in Hi by exact Hlen; lia.
  - rewrite length_last_n by exact Hlen; lia.
Qed.

Lemma burst_test_false (timestamps : list T) :
  wide_gap (last_n spamming_count timestamps) ->
  (Nat.leb spamming_count (length timestamps)
   && forallb (fun interval => t_ltb interval spamming_interval)
        (intervals spamming_count (last_n spamming_count timestamps)))%bool
  = false.
Proof.
  intros (i & Hi & Hgap).
  destruct (_ && _)%bool eqn:E; [|reflexivity].
  apply burst_test_true in E as [_ Hg].
  rewrite (Hg i Hi) in Hgap; discriminate.
Qed.

Lemma spamming_ban_observed db ev now h :
  observed db ev ->
  spamming_ban db ev now h =
  let ban_time := QQAdminDB.get db (group_id ev) "spamming_ban_time" 0 in
  if t_ltb (t_sub now (get_last_banned h (group_id ev) (sender_id ev)))
       (t_of_int ban_time)
  then (h, [])
  else record_message ban_time (group_id ev) (sender_id ev) now h.
Proof.
  intros (Hs & Hb & Hm); unfold spamming_ban.
  apply String.eqb_neq in Hs; rewrite Hs.
  apply Z.leb_gt in Hb; rewrite Hb.
  apply Nat.eqb_neq in Hm; rewrite Hm.
  reflexivity.
Qed.

Lemma spamming_ban_cooldown db ev now h :
  observed db ev ->
  within (QQAdminDB.get db (group_id ev) "spamming_ban_time" 0)
    (get_last_banned h (group_id ev) (sender_id ev)) now ->
  spamming_ban db ev now h = (h, []).
Proof.
  intros Ho Hw; rewrite spamming_ban_observed by exact Ho.
  unfold within in Hw; simpl; now rewrite Hw.
Qed.

Lemma spamming_ban_all_cooldown db ev times h :
  observed db ev ->
  Forall (within (QQAdminDB.get db (group_id ev) "spamming_ban_time" 0)
            (get_last_banned h (group_id ev) (sender_id ev))) times ->
  spamming_ban_all db ev times h = (h, map (fun _ => []) times).
Proof.
  intros Ho; induction 1 as [|now times Hw _ IH]; simpl; [reflexivity|].
  rewrite spamming_ban_cooldown, IH by assumption; reflexivity.
Qed.

(** C2: for an observed message that is not in a cooldown, if the last
    five recorded timestamps (the new one included) have all their gaps
    below the spamming interval, one ban is issued, the window is cleared
    and the cooldown starts at the message, so that every later message
    within the ban duration of the trigger issues no ban and changes
    nothing; if instead some gap among them is not below the interval, no
    ban is issued. *)
Theorem flood_burst_bans_once db ev now h :
  observed db ev ->
  ~ within (QQAdminDB.get db (group_id ev) "spamming_ban_time" 0)
      (get_last_banned h (group_id ev) (sender_id ev)) now ->
  let ban_time := QQAdminDB.get db (group_id ev) "spamming_ban_time" 0 in
  let timestamps :=
    deque_append spamming_count
      (get_timestamps h (group_id ev) (sender_id ev)) now in
  let recent := last_n spamming_count timestamps in
  ((spamming_count <= length timestamps)%nat -> gaps_below recent ->
   exists h',
     spamming_ban db ev now h
     = (h', [{| ban_group := group_id ev; ban_user := sender_id ev;
                ban_duration := ban_time |}])
     /\ get_timestamps h' (group_id ev) (sender_id ev) = []
     /\ get_last_banned h' (group_id ev) (sender_id ev) = now
     /\ forall times, Forall (within ban_time now) times ->
          spamming_ban_all db ev times h' = (h', map (fun _ => []) times))
  /\ (wide_gap recent ->
      exists h',
        spamming_ban db ev now h = (h', [])
        /\ get_timestamps h' (group_id ev) (sender_id ev) = timestamps
        /\ get_last_banned h' (group_id ev) (sender_id ev)
           = get_last_banned h (group_id ev) (sender_id ev)).
Proof.
  intros Ho Hcool ban_time timestamps recent.
  assert (E : spamming_ban db ev now h
              = record_message ban_time (group_id ev) (sender_id ev) now h).
  { rewrite spamming_ban_observed by exact Ho; simpl.
    unfold within in Hcool; apply not_true_iff_false in Hcool.
    now rewrite Hcool. }
  rewrite E; unfold record_message; fold timestamps; split.
  - intros Hlen Hgaps.
    assert (B : (Nat.leb spamming_count (length timestamps)
                 && forallb (fun interval => t_ltb interval spamming_interval)
                      (intervals spamming_count
                         (last_n spamming_count timestamps)))%bool = true)
      by (apply burst_test_true; split; assumption).
    rewrite B; eexists; split; [reflexivity|].
    assert (L : get_last_banned
              {| msg_timestamps :=
                   <[(group_id ev, sender_id ev) := []]> (msg_timestamps h);
                 last_banned_time :=
                   <[(group_id ev, sender_id ev) := now]> (last_banned_time h);
                 vote_cache := vote_cache h;
                 settle_tasks := settle_tasks h |}
              (group_id ev) (sender_id ev) = now).
    { unfold get_last_banned; simpl; now rewrite lookup_insert_eq. }
    split; [unfold get_timestamps; simpl; now rewrite lookup_insert_eq|].
    split; [exact L|].
    intros times Hall; apply spamming_ban_all_cooldown; [exact Ho|].
    rewrite L; exact Hall.
  - intros Hgap; rewrite (burst_test_false timestamps Hgap).
    eexists; split; [reflexivity|].
    split; [unfold get_timestamps; simpl; now rewrite lookup_insert_eq|].
    reflexivity.
Qed.

(** C4 as amended: the cooldown compares the time since the last ban with
    the duration the settings hold when the later message is observed: the
    message is dropped when it is within that duration of the last ban and
    recorded otherwise, and two settings stores that agree on the current
    duration give the same result. *)
Theorem cooldown_uses_current_duration db ev now h :
  observed db ev ->
  let ban_time := QQAdminDB.get db (group_id ev) "spamming_ban_time" 0 in
  let last_time := get_last_banned h (group_id ev) (sender_id ev) in
  (within ban_time last_time now -> spamming_ban db ev now h = (h, []))
  /\ (~ within ban_time last_time now ->
      spamming_ban db ev now h
      = record_message ban_time (group_id ev) (sender_id ev) now h)
  /\ (forall db',
        QQAdminDB.get db' (group_id ev) "spamming_ban_time" 0 = ban_time ->
        spamming_ban db' ev now h = spamming_ban db ev now h).
Proof.
  intros Ho ban_time last_time; repeat split.
  - intros Hw; now apply spamming_ban_cooldown.
  - intros Hw; rewrite spamming_ban_observed by exact Ho; simpl.
    unfold within in Hw; apply not_true_iff_false in Hw.
    fold ban_time last_time; now rewrite Hw.
  - intros db' E; unfold spamming_ban; fold ban_time; now rewrite E.
Qed.

(** C10: the command that sets the flood ban duration writes the value
    under [word_ban_time], as the word-ban command does; every
    [spamming_ban_time] entry keeps its value, so the flood detector
    answers as before, and the word-ban duration of the group is the new
    value. *)
Theorem spamming_ban_time_command ev value db :
  let db' := handle_spamming_ban_time ev (Some value) db in
  db' = QQAdminDB.set db (group_id ev) "word_ban_time" value
  /\ (forall g default,
        QQAdminDB.get db' g "spamming_ban_time" default
        = QQAdminDB.get db g "spamming_ban_time" default)
  /\ (forall ev' (now : T) h,
        spamming_ban db' ev' now h = spamming_ban db ev' now h)
  /\ (forall default,
        QQAdminDB.get db' (group_id ev) "word_ban_time" default = value)
  /\ db' = handle_word_ban_time ev (Some value) db.
Proof.
  assert (F : forall g default,
             QQAdminDB.get (handle_spamming_ban_time ev (Some value) db) g
               "spamming_ban_time" default
             = QQAdminDB.get db g "spamming_ban_time" default).
  { intros g default; unfold handle_spamming_ban_time, QQAdminDB.get,
      QQAdminDB.set.
    rewrite lookup_insert_ne; [reflexivity|].
    intros [= _ E]; discriminate E. }
  simpl; repeat split; try reflexivity.
  - exact F.
  - intros ev' now h; unfold spamming_ban; now rewrite F.
  - intros default; unfold QQAdminDB.get, QQAdminDB.set.
    now rewrite lookup_insert_eq.
Qed.

End Flood.

(** ** The flood detector on a burst *)

Section FloodExamples.
Import BanproHandle FloodSpec Scenario.

Lemma flood_burst_bans_once_witness :
  exists h',
    spamming_ban flood_db flood_ev (10004 # 10)%Q flood_h0
    = (h', [{| ban_group := "100"; ban_user := "42"; ban_duration := 60 |}])
    /\ get_timestamps h' "100" "42" = []
    /\ get_last_banned h' "100" "42" = (10004 # 10)%Q
    /\ forall times, Forall (within 60 (10004 # 10)%Q) times ->
         spamming_ban_all flood_db flood_ev times h'
         = (h', map (fun _ => []) times).
Proof.
  refine (proj1 (flood_burst_bans_once flood_db flood_ev (10004 # 10)%Q
                   flood_h0 _ _) _ _).
  - repeat split; discriminate.
  - intros E; vm_compute in E; discriminate E.
  - vm_compute; lia.
  - intros i Hi.
    do 4 (destruct i as [|i]; [reflexivity|]).
    exfalso.
    match type of Hi with
    | (_ < ?n)%nat => change n with 5%nat in Hi
    end; lia.
Defined.

Lemma cooldown_uses_current_duration_witness :
  spamming_ban flood_db5 flood_ev 1010%Q flood_h1
  = record_message 5 "100" "42" 1010%Q flood_h1.
Proof.
  refine (proj1 (proj2 (cooldown_uses_current_duration flood_db5 flood_ev
                          1010%Q flood_h1 _)) _).
  - repeat split; discriminate.
  - intros E; vm_compute in E; discriminate E.
Defined.

(** The fifth message of the burst triggers a 60 s ban at 1000.4 s and
    leaves [flood_h1]. *)
Lemma flood_scenario_trigger :
  spamming_ban flood_db flood_ev (10004 # 10)%Q flood_h0
  = (flood_h1,
     [{| ban_group := "100"; ban_user := "42"; ban_duration := 60 |}]).
Proof. vm_compute; reflexivity. Qed.

(** C4 fails as stated: a 60 s ban is triggered at 1000.4 s, the setting
    is then lowered to 5 s, and a message at 1010 s - 9.6 s after the
    trigger, within the 60 s of the ban - is recorded, not dropped. *)
Lemma cooldown_trigger_duration_counterexample :
  (within 60 (10004 # 10)%Q 1010%Q
   /\ get_timestamps (fst (spamming_ban flood_db5 flood_ev 1010%Q flood_h1))
        "100" "42" = [1010%Q]
   /\ get_timestamps flood_h1 "100" "42" = [])
  /\ ~ cooldown_uses_trigger_duration (T := Q).
Proof.
  split; [repeat split; vm_compute; reflexivity|].
  intros Hclaim.
  pose proof (Hclaim flood_db flood_db5 flood_ev (10004 # 10)%Q 1010%Q
                flood_h0 flood_h1 60) as E.
  assert (E' : spamming_ban flood_db5 flood_ev 1010%Q flood_h1
               = (flood_h1, [])).
  { apply E.
    - repeat split; discriminate.
    - repeat split; discriminate.
    - exact flood_scenario_trigger.
    - vm_compute; reflexivity. }
  apply (f_equal (fun r => get_timestamps (fst r) "100" "42")) in E'.
  vm_compute in E'; discriminate E'.
Qed.

End FloodExamples.

(** ** Vote sessions *)

Section Vote.
Import BanproHandle VoteSpec.
Context {T : Type} `{Clock T}.

(** [sum(votes)] counts the agreeing votes, and [len(votes) - sum(votes)]
    the disagreeing ones. *)
Lemma py_sum_counts (l : list bool) :
  py_sum l = Z.of_nat (length (List.filter (Bool.eqb true) l))
  /\ Z.of_nat (length l) - py_sum l
     = Z.of_nat (length (List.filter (Bool.eqb false) l)).
Proof.
  induction l as [|b l [IH1 IH2]]; [split; reflexivity|].
  change (py_sum (b :: l)) with (Z.b2z b + py_sum l).
  destruct b; simpl List.filter; simpl length; simpl Z.b2z; lia.
Qed.

Lemma free_slot_frees gid tasks (h : handle T) :
  vote_cache (free_slot gid tasks h) !! gid = None.
Proof. unfold free_slot; simpl; apply lookup_delete_eq. Qed.

(** A settlement that finds the slot free bans nobody and leaves the
    fields of the handle as they are. *)
Lemma settle_vote_freed gid tasks io (h : handle T) :
  vote_cache h !! gid = None ->
  settle_vote gid tasks io h
  = ({| msg_timestamps := msg_timestamps h;
        last_banned_time := last_banned_time h;
        vote_cache := vote_cache h;
        settle_tasks := tasks |}, [], AlreadySettled).
Proof. intros E; unfold settle_vote; now rewrite E. Qed.

(** Whatever way a vote is resolved, the slot of its group is free
    afterwards. *)
Lemma vote_mute_resolved_frees ev agree (h h' : handle T) bans out :
  vote_mute ev agree h = (h', bans, out) ->
  out = Passed \/ out = Rejected ->
  vote_cache h' !! group_id ev = None.
Proof.
  unfold vote_mute; intros E Hout.
  destruct (vote_cache h !! group_id ev) as [record|] eqn:L.
  - repeat match type of E with
           | (if ?b then _ else _) = _ => destruct b
           end;
      injection E as <- <- <-;
      solve [apply free_slot_frees | destruct Hout; discriminate].
  - injection E as <- <- <-; exact L.
Qed.

(** A settlement that ends without an exception leaves the slot free. *)
Lemma settle_vote_frees gid tasks io (h h' : handle T) bans out :
  settle_vote gid tasks io h = (h', bans, out) ->
  out <> Raised ->
  vote_cache h' !! gid = None.
Proof.
  unfold settle_vote; intros E Hout.
  destruct (vote_cache h !! gid) as [record|] eqn:L.
  - repeat match type of E with
           | (if ?b then _ else _) = _ => destruct b
           end;
      injection E as <- <- <-;
      solve [apply free_slot_frees | congruence].
  - injection E as <- <- <-; exact L.
Qed.

(** A pending task that has slept long enough runs the settlement of its
    group. *)
Lemma wake_due i gid due now io (h : handle T) :
  settle_tasks h !! i = Some (gid, due) ->
  t_ltb now due = false ->
  wake i now io h = settle_vote gid (delete i (settle_tasks h)) io h.
Proof. intros E D; unfold wake; now rewrite E, D. Qed.

(** The two counts of [settle_vote] are the numbers of agreeing and of
    disagreeing voters. *)
Lemma settle_vote_counts gid tasks io (h : handle T) record :
  vote_cache h !! gid = Some record ->
  settle_vote gid tasks io h
  = if negb (nickname_ok io) then (keep_slot tasks h, [], Raised)
    else if (count_votes false (votes record)
             <? count_votes true (votes record))%Z
    then (free_slot gid tasks h,
          [{| ban_group := gid; ban_user := target record;
              ban_duration := ban_time record |}],
          ExpiredPassed)
    else if send_ok io then (free_slot gid tasks h, [], ExpiredRejected)
    else (keep_slot tasks h, [], Raised).
Proof.
  intros E; unfold settle_vote; rewrite E.
  destruct (py_sum_counts (map_to_list (votes record)).*2) as [Ha Hd].
  rewrite Hd, Ha; reflexivity.
Qed.

(** C5, where the code departs from it.  A settlement that finds the
    session of its group bans the target exactly when the agreeing votes
    outnumber the disagreeing ones; on a tie, and so when nobody voted, the
    vote is rejected without a ban.  The slot is freed when the vote passes,
    and when it is rejected and the rejection is announced; it is not freed
    when the announcement of the rejection raises, nor when the nickname of
    the target cannot be fetched: the session then stays in the slot, with
    no ban and no task left to settle it. *)
Theorem settlement_by_majority gid tasks io (h : handle T) record :
  vote_cache h !! gid = Some record ->
  let agree := count_votes true (votes record) in
  let disagree := count_votes false (votes record) in
  (nickname_ok io = true -> disagree < agree ->
   settle_vote gid tasks io h
   = (free_slot gid tasks h,
      [{| ban_group := gid; ban_user := target record;
          ban_duration := ban_time record |}],
      ExpiredPassed))
  /\ (nickname_ok io = true -> send_ok io = true -> agree <= disagree ->
      settle_vote gid tasks io h = (free_slot gid tasks h, [], ExpiredRejected))
  /\ (nickname_ok io = true -> send_ok io = true -> votes record = ∅ ->
      settle_vote gid tasks io h = (free_slot gid tasks h, [], ExpiredRejected))
  /\ vote_cache (free_slot gid tasks h) !! gid = None
  /\ (nickname_ok io = false \/ (send_ok io = false /\ agree <= disagree) ->
      settle_vote gid tasks io h = (keep_slot tasks h, [], Raised)
      /\ vote_cache (keep_slot tasks h) !! gid = Some record
      /\ settle_tasks (keep_slot tasks h) = tasks).
Proof.
  intros E agree disagree.
  pose proof (settle_vote_counts gid tasks io h record E) as S.
  fold agree disagree in S.
  assert (R : nickname_ok io = true -> send_ok io = true ->
              agree <= disagree ->
              settle_vote gid tasks io h
              = (free_slot gid tasks h, [], ExpiredRejected)).
  { intros Hn Hs Hle; rewrite S, Hn, Hs; simpl.
    apply Z.ltb_ge in Hle; now rewrite Hle. }
  split; [|split; [exact R|split; [|split; [apply free_slot_frees|]]]].
  - intros Hn Hlt; rewrite S, Hn; simpl.
    apply Z.ltb_lt in Hlt; now rewrite Hlt.
  - intros Hn Hs Hempty; apply R; try assumption.
    unfold agree, disagree, count_votes.
    rewrite Hempty, map_to_list_empty; reflexivity.
  - intros Hraise; split; [|split; [exact E | reflexivity]].
    rewrite S; destruct Hraise as [Hn | [Hs Hle]].
    + now rewrite Hn.
    + apply Z.ltb_ge in Hle; rewrite Hle, Hs.
      now destruct (negb (nickname_ok io)).
Qed.


(** Without a mentioned target too the running session is left alone. *)
Lemma start_vote_mute_active_unchanged conf ev ban_time rand now
    (h : handle T) record :
  vote_cache h !! group_id ev = Some record ->
  fst (fst (start_vote_mute conf ev ban_time rand now h)) = h.
Proof.
  intros Hsome; unfold start_vote_mute.
  destruct (ats ev); [reflexivity|].
  destruct ban_time as [b|]; [destruct (b =? 0)%Z|];
    try destruct (randint _ _); now rewrite ?Hsome.
Qed.

End Vote.

(** ** Two votes in a row *)

Section VoteExamples.
Import BanproHandle VoteSpec Scenario.

Lemma settlement_by_majority_witness :
  settle_vote "100" [] send_fails (fst (run vote_conf silent_vote idle))
  = (keep_slot [] (fst (run vote_conf silent_vote idle)), [], Raised)
  /\ vote_cache (keep_slot [] (fst (run vote_conf silent_vote idle))) !! "100"
     = Some vote_on_7
  /\ settle_tasks (keep_slot [] (fst (run vote_conf silent_vote idle))) = [].
Proof.
  refine (proj2 (proj2 (proj2 (proj2
            (settlement_by_majority "100" [] send_fails
               (fst (run vote_conf silent_vote idle)) vote_on_7 _)))) _).
  - vm_compute; reflexivity.
  - right; split; [reflexivity | vm_compute; discriminate].
Defined.

(** C5, the session that is never settled: nobody votes on the vote
    against user 7; at its expiry the message that tells of the rejection
    cannot be sent, and the task ends with the session still in the slot.
    No task is left, a new vote is turned away, and a vote cast an hour
    later still counts for the old session. *)
Example unsettled_vote_blocks_group :
  snd (run vote_conf
         (silent_vote ++
          [DoWake 0 60%Q send_fails;
           DoStart (msg "12" ["8"]) (Some 300) 0 100%Q;
           DoVote (msg "13" []) true])
         idle)
  = [([], Started); ([], Raised); ([], AlreadyActive); ([], Progress 1 0 2)]
  /\ settle_tasks
       (fst (run vote_conf (silent_vote ++ [DoWake 0 60%Q send_fails]) idle))
     = []
  /\ vote_cache
       (fst (run vote_conf (silent_vote ++ [DoWake 0 60%Q send_fails]) idle))
     !! "100"
     = Some vote_on_7.
Proof. repeat split; vm_compute; reflexivity. Qed.



(** C1, where the code departs from it: the vote against user 7 is
    resolved early, a vote against user 8 starts at 20 s and is due at
    80 s, and the task of the first vote, waking at 60 s, finds a session
    in the slot and settles it: user 8 is banned on one vote, 20 s before
    the vote ends, later votes find no session, and the task of the second
    vote finds nothing to settle. *)
Theorem stale_task_settles_next_vote :
  snd (run vote_conf two_votes idle)
  = [([], Started); ([], Progress 1 0 2);
     ([{| ban_group := "100"; ban_user := "7"; ban_duration := 600 |}], Passed);
     ([], Started); ([], Progress 1 0 2)]
  /\ vote_cache (fst (run vote_conf two_votes idle)) !! "100" = Some vote_on_8
  /\ settle_tasks (fst (run vote_conf two_votes idle))
     = [("100", 0 + inject_Z 60); ("100", 20 + inject_Z 60)]%Q
  /\ t_ltb 60%Q (expire vote_on_8) = true
  /\ snd (run vote_conf
            [DoWake 0 60%Q all_return; DoVote (msg "14" []) false;
             DoWake 0 80%Q all_return]
            (fst (run vote_conf two_votes idle)))
     = [([{| ban_group := "100"; ban_user := "8"; ban_duration := 300 |}],
         ExpiredPassed);
        ([], NoActiveSession);
        ([], AlreadySettled)].
Proof. repeat split; vm_compute; reflexivity. Qed.

End VoteExamples.

(** ** Group settings *)

Section Settings.
Import PyStr GroupJoinData GroupJoinDataOps.

Lemma get_ensure_group_some jconf g cfg c :
  cfg !! g = Some c -> ensure_group jconf g cfg = cfg.
Proof. intros E; unfold ensure_group; now rewrite E. Qed.

Lemma get_ensure_group_none jconf g cfg :
  cfg !! g = None -> get (ensure_group jconf g cfg) g = default_cfg jconf.
Proof.
  intros E; unfold ensure_group, get; rewrite E; now rewrite lookup_insert_eq.
Qed.

Lemma ensure_group_other jconf g g' cfg :
  g' <> g -> ensure_group jconf g cfg !! g' = cfg !! g'.
Proof.
  intros Hne; unfold ensure_group.
  destruct (cfg !! g); [reflexivity | now rewrite lookup_insert_ne].
Qed.

Lemma get_set_block_ids jconf g uids cfg :
  get_block_ids (set_block_ids jconf g uids cfg) g = uids.
Proof.
  unfold get_block_ids, get, set_block_ids; now rewrite lookup_insert_eq.
Qed.

Lemma set_block_ids_other jconf g g' uids cfg :
  g' <> g -> set_block_ids jconf g uids cfg !! g' = cfg !! g'.
Proof.
  intros Hne; unfold set_block_ids.
  rewrite lookup_insert_ne by congruence.
  now apply ensure_group_other.
Qed.

(** The block-list setter is the general setter with one keyword. *)
Lemma set_block_ids_is_set jconf g uids cfg :
  set_block_ids jconf g uids cfg
  = set jconf g
      {| switch := None; accept_keywords := None; reject_keywords := None;
         min_level := None; max_time := None; block_ids := Some uids |} cfg.
Proof. reflexivity. Qed.

(** X1: black-listing a user in a group that has no settings yet creates
    the group with the configured defaults (switch, minimum level,
    attempt limit, no keywords) and a block list holding just that user;
    the other groups are left as they are. *)
Theorem add_block_id_creates_group jconf g u cfg :
  cfg !! g = None ->
  get_block_ids (add_block_id jconf g u cfg) g = [u]
  /\ get_switch (add_block_id jconf g u cfg) g = default_switch jconf
  /\ get_min_level (add_block_id jconf g u cfg) g = default_min_level jconf
  /\ get_max_time (add_block_id jconf g u cfg) g = default_max_time jconf
  /\ get_accept_keywords (add_block_id jconf g u cfg) g = []
  /\ get_reject_keywords (add_block_id jconf g u cfg) g = []
  /\ forall g', g' <> g -> add_block_id jconf g u cfg !! g' = cfg !! g'.
Proof.
  intros E.
  assert (B : get_block_ids cfg g = [])
    by (unfold get_block_ids, get; now rewrite E).
  unfold add_block_id; rewrite B; simpl app.
  split; [apply get_set_block_ids|].
  unfold get_switch, get_min_level, get_max_time, get_accept_keywords,
    get_reject_keywords, get at 1 2 3 4 5, set_block_ids.
  rewrite !lookup_insert_eq, !get_ensure_group_none by exact E; simpl.
  repeat split; intros g' Hne; rewrite lookup_insert_ne by congruence.
  now apply ensure_group_other.
Qed.

Lemma add_block_id_creates_group_witness :
  get_block_ids (add_block_id Scenario.jconf "200" "42"
                   (JoinHandle.db Scenario.join0)) "200" = ["42"]
  /\ get_max_time (add_block_id Scenario.jconf "200" "42"
                     (JoinHandle.db Scenario.join0)) "200" = 3.
Proof.
  destruct (add_block_id_creates_group Scenario.jconf "200" "42"
              (JoinHandle.db Scenario.join0)) as (B & _ & _ & M & _).
  - reflexivity.
  - split; [exact B | exact M].
Defined.

(** X2: black-listing a user in a group that has settings appends the
    user to the block list - also when already there - and changes no
    other setting of the group and no other group. *)
Theorem add_block_id_appends jconf g u cfg c :
  cfg !! g = Some c ->
  get_block_ids (add_block_id jconf g u cfg) g
  = (get_block_ids cfg g ++ [u])%list
  /\ get_switch (add_block_id jconf g u cfg) g = get_switch cfg g
  /\ get_min_level (add_block_id jconf g u cfg) g = get_min_level cfg g
  /\ get_max_time (add_block_id jconf g u cfg) g = get_max_time cfg g
  /\ get_accept_keywords (add_block_id jconf g u cfg) g
     = get_accept_keywords cfg g
  /\ get_reject_keywords (add_block_id jconf g u cfg) g
     = get_reject_keywords cfg g
  /\ forall g', g' <> g -> add_block_id jconf g u cfg !! g' = cfg !! g'.
Proof.
  intros E.
  split; [apply get_set_block_ids|].
  assert (G : get cfg g = c) by (unfold get; now rewrite E).
  assert (G' : get (add_block_id jconf g u cfg) g
               = {| switch := switch c;
                    accept_keywords := accept_keywords c;
                    reject_keywords := reject_keywords c;
                    min_level := min_level c;
                    max_time := max_time c;
                    block_ids := Some (get_block_ids cfg g ++ [u])%list |}).
  { unfold add_block_id, set_block_ids.
    rewrite (get_ensure_group_some jconf g cfg c E), G.
    unfold get; now rewrite lookup_insert_eq. }
  unfold get_switch, get_min_level, get_max_time, get_accept_keywords,
    get_reject_keywords.
  rewrite G', G; simpl.
  repeat split.
  intros g' Hne; unfold add_block_id; now apply set_block_ids_other.
Qed.

Lemma add_block_id_appends_witness :
  get_block_ids (add_block_id Scenario.jconf "100" "666"
                   (JoinHandle.db Scenario.join0)) "100" = ["666"; "666"]
  /\ get_min_level (add_block_id Scenario.jconf "100" "666"
                      (JoinHandle.db Scenario.join0)) "100" = 10.
Proof.
  destruct (add_block_id_appends Scenario.jconf "100" "666"
              (JoinHandle.db Scenario.join0) Scenario.group100)
    as (B & _ & M & _).
  - reflexivity.
  - split; [exact B | exact M].
Defined.

Lemma filter_not_in (u : string) (l : list string) :
  ~ In u l -> List.filter (fun i => negb (String.eqb i u)) l = l.
Proof.
  induction l as [|x l IH]; simpl; [reflexivity|]; intros Hn.
  destruct (String.eqb_spec x u) as [->|Hne]; simpl.
  - exfalso; apply Hn; now left.
  - rewrite IH; [reflexivity | intros Hin; apply Hn; now right].
Qed.

(** X3: after [remove_block_id] the user is off the block list however
    often it was on it, and every other user is on it exactly when it was
    before. *)
Theorem remove_block_id_removes jconf g u cfg :
  forall v,
    In v (get_block_ids (remove_block_id jconf g u cfg) g)
    <-> In v (get_block_ids cfg g) /\ v <> u.
Proof.
  intros v; unfold remove_block_id; rewrite get_set_block_ids.
  rewrite filter_In, negb_true_iff, String.eqb_neq; reflexivity.
Qed.

(** X4: black-listing a user who was not on the list and removing it
    again gives back the block list as it was. *)
Theorem add_remove_block_id jconf g u cfg :
  ~ In u (get_block_ids cfg g) ->
  get_block_ids (remove_block_id jconf g u (add_block_id jconf g u cfg)) g
  = get_block_ids cfg g.
Proof.
  intros Hn; unfold remove_block_id, add_block_id.
  rewrite !get_set_block_ids, List.filter_app, filter_not_in by exact Hn.
  simpl; rewrite String.eqb_refl; simpl; apply app_nil_r.
Qed.

Lemma add_remove_block_id_witness :
  get_block_ids
    (remove_block_id Scenario.jconf "100" "42"
       (add_block_id Scenario.jconf "100" "42" (JoinHandle.db Scenario.join0)))
    "100"
  = ["666"].
Proof.
  apply (add_remove_block_id Scenario.jconf "100" "42"
           (JoinHandle.db Scenario.join0)).
  intros [E|[]]; discriminate E.
Defined.

End Settings.

(** ** Join admission, the other rules *)

Section JoinRules.
Import PyStr GroupJoinData GroupJoinDataOps JoinHandle JoinSpec JoinEvents.
Context {L : Lower}.

Lemma matches_dec kws comment : {matches kws comment} + {~ matches kws comment}.
Proof.
  destruct (match comment with
            | Some (String a c) =>
              existsb (fun kw => contains (lower kw) (lower (String a c))) kws
            | _ => false
            end) eqn:E.
  - left; now apply matches_iff_existsb.
  - right; now apply not_matches_existsb.
Qed.

Lemma passes_level_dec min level :
  {passes_level min level} + {~ passes_level min level}.
Proof.
  destruct level as [lvl|]; simpl; [|left; exact I].
  destruct (Z_lt_dec 0 min), (Z_lt_dec lvl min); try (left; lia).
  right; intros Hn; apply Hn; split; assumption.
Qed.

Lemma should_approve_blocked jconf g u comment level h :
  In u (get_block_ids (db h) g) ->
  should_approve jconf g u comment level h = (Some false, Blacklisted, h).
Proof.
  intros Hin; unfold should_approve.
  case_bool_decide as Hb; [reflexivity|].
  exfalso; apply Hb; now apply list_elem_of_In.
Qed.

Lemma should_approve_level_low jconf g u comment lvl h :
  ~ In u (get_block_ids (db h) g) ->
  0 < get_min_level (db h) g ->
  lvl < get_min_level (db h) g ->
  should_approve jconf g u comment (Some lvl) h
  = (Some false, LevelTooLow lvl (get_min_level (db h) g), h).
Proof.
  intros Hb Hpos Hlow; unfold should_approve.
  case_bool_decide as Hin; [exfalso; apply Hb; now apply list_elem_of_In|].
  apply Z.ltb_lt in Hpos, Hlow; now rewrite Hpos, Hlow.
Qed.

Lemma not_passes_level min level :
  ~ passes_level min level ->
  exists lvl, level = Some lvl /\ 0 < min /\ lvl < min.
Proof.
  destruct level as [lvl|]; simpl; [|intros Hn; exfalso; now apply Hn].
  intros Hn; exists lvl; split; [reflexivity|].
  destruct (Z_lt_dec 0 min), (Z_lt_dec lvl min); try (exfalso; apply Hn; lia).
  split; assumption.
Qed.

Lemma check_comment_reject jconf g u comment h :
  matches (get_reject_keywords (db h) g) comment ->
  check_comment jconf g u comment h
  = (Some false, RejectKeyword,
     {| db := add_block_id jconf g u (db h); _fail := _fail h |}).
Proof.
  intros Hr; apply matches_iff_existsb in Hr.
  unfold check_comment.
  destruct comment as [[|a c]|]; try discriminate.
  now rewrite Hr.
Qed.

(** X5: a request is approved exactly when the user is not on the block
    list, passes the level gate, and the comment contains an accept
    keyword and no reject keyword; an approval changes neither the
    settings nor the attempt cache. *)
Theorem approval_iff jconf g u comment level h :
  (fst (fst (should_approve jconf g u comment level h)) = Some true <->
   ~ In u (get_block_ids (db h) g)
   /\ passes_level (get_min_level (db h) g) level
   /\ ~ matches (get_reject_keywords (db h) g) comment
   /\ matches (get_accept_keywords (db h) g) comment)
  /\ (fst (fst (should_approve jconf g u comment level h)) = Some true ->
      snd (should_approve jconf g u comment level h) = h).
Proof.
  assert (Hif : ~ In u (get_block_ids (db h) g)
                /\ passes_level (get_min_level (db h) g) level
                /\ ~ matches (get_reject_keywords (db h) g) comment
                /\ matches (get_accept_keywords (db h) g) comment ->
                should_approve jconf g u comment level h
                = (Some true, AcceptKeyword, h)).
  { intros (Hb & Hl & Hr & Ha).
    rewrite should_approve_past_gate, check_comment_accept by assumption.
    reflexivity. }
  assert (Honly : fst (fst (should_approve jconf g u comment level h))
                  = Some true ->
                  ~ In u (get_block_ids (db h) g)
                  /\ passes_level (get_min_level (db h) g) level
                  /\ ~ matches (get_reject_keywords (db h) g) comment
                  /\ matches (get_accept_keywords (db h) g) comment).
  { intros Happ.
    destruct (In_dec string_dec u (get_block_ids (db h) g)) as [Hb|Hb].
    { rewrite should_approve_blocked in Happ by exact Hb; discriminate. }
    destruct (passes_level_dec (get_min_level (db h) g) level) as [Hl|Hl].
    2:{ apply not_passes_level in Hl as (lvl & -> & Hpos & Hlow).
        rewrite should_approve_level_low in Happ by assumption.
        discriminate. }
    rewrite should_approve_past_gate in Happ by assumption.
    destruct (matches_dec (get_reject_keywords (db h) g) comment) as [Hr|Hr].
    { rewrite check_comment_reject in Happ by exact Hr; discriminate. }
    destruct (matches_dec (get_accept_keywords (db h) g) comment) as [Ha|Ha].
    { auto. }
    rewrite check_comment_unmatched in Happ by assumption.
    now apply count_attempt_never_approves in Happ. }
  split; [split; [exact Honly | intros Hc; now rewrite (Hif Hc)]|].
  intros Happ; now rewrite (Hif (Honly Happ)).
Qed.

(** X6: a comment that contains a reject keyword gets the request
    rejected and the user black-listed, also when it contains an accept
    keyword as well; the attempt cache is left alone. *)
Theorem reject_keyword_blacklists jconf g u comment level h :
  ~ In u (get_block_ids (db h) g) ->
  passes_level (get_min_level (db h) g) level ->
  matches (get_reject_keywords (db h) g) comment ->
  exists h',
    decide_request jconf g u comment level h = (Some false, RejectKeyword, h')
    /\ In u (get_block_ids (db h') g)
    /\ _fail h' = _fail h.
Proof.
  intros Hb Hl Hr; eexists; unfold decide_request.
  rewrite should_approve_past_gate, check_comment_reject by assumption.
  split; [reflexivity|]; split; [apply add_block_id_blocks | reflexivity].
Qed.

(** X7: a user whose level is known and below the positive minimum of
    the group is rejected for it whatever the comment says, without any
    change of state; a user whose level is hidden is never rejected for
    the level. *)
Theorem level_gate jconf g u comment lvl h :
  ~ In u (get_block_ids (db h) g) ->
  0 < get_min_level (db h) g ->
  lvl < get_min_level (db h) g ->
  decide_request jconf g u comment (Some lvl) h
  = (Some false, LevelTooLow lvl (get_min_level (db h) g), h)
  /\ forall lvl' m,
       snd (fst (decide_request jconf g u comment None h)) <> LevelTooLow lvl' m.
Proof.
  intros Hb Hpos Hlow; split.
  - unfold decide_request; now rewrite should_approve_level_low.
  - intros lvl' m; unfold decide_request.
    rewrite should_approve_past_gate by (assumption || exact I).
    destruct (matches_dec (get_reject_keywords (db h) g) comment) as [Hr|Hr].
    { rewrite check_comment_reject by exact Hr; discriminate. }
    destruct (matches_dec (get_accept_keywords (db h) g) comment) as [Ha|Ha].
    { rewrite check_comment_accept by assumption; discriminate. }
    rewrite check_comment_unmatched by assumption.
    unfold count_attempt, unmatched.
    repeat match goal with
           | |- context [if ?b then _ else _] => destruct b
           end; discriminate.
Qed.

(** What a request that meets no rule is answered. *)
Lemma decide_request_counted jconf g u comment level h :
  ~ In u (get_block_ids (db h) g) ->
  passes_level (get_min_level (db h) g) level ->
  ~ matches (get_reject_keywords (db h) g) comment ->
  ~ matches (get_accept_keywords (db h) g) comment ->
  0 < get_max_time (db h) g ->
  get_fail (_fail h) (fail_key g u) + 1 < get_max_time (db h) g ->
  exists h',
    decide_request jconf g u comment level h
    = (if no_match_reject jconf then Some false else None, NoKeyword, h')
    /\ db h' = db h
    /\ get_fail (_fail h') (fail_key g u)
       = get_fail (_fail h) (fail_key g u) + 1.
Proof.
  intros Hb Hl Hr Ha Hpos Hlt; eexists.
  rewrite decide_request_unmatched, count_attempt_below by assumption.
  unfold unmatched; split; [destruct (no_match_reject jconf); reflexivity|].
  split; [reflexivity | apply get_fail_insert].
Qed.

Lemma decide_all_app jconf g u reqs1 reqs2 h :
  decide_all jconf g u (reqs1 ++ reqs2)%list h
  = let '(log1, h1) := decide_all jconf g u reqs1 h in
    let '(log2, h2) := decide_all jconf g u reqs2 h1 in
    ((log1 ++ log2)%list, h2).
Proof.
  revert h; induction reqs1 as [|[c l] reqs1 IH]; intros h; simpl.
  - now destruct (decide_all jconf g u reqs2 h).
  - destruct (decide_request jconf g u c l h) as [[a r] h1].
    rewrite IH.
    destruct (decide_all jconf g u reqs1 h1) as [log1 h2].
    now destruct (decide_all jconf g u reqs2 h2).
Qed.

(** The requests pass the level gate and match no keyword. *)
Lemma decide_all_below jconf g u reqs : forall h,
  ~ In u (get_block_ids (db h) g) ->
  Forall (fun req =>
            passes_level (get_min_level (db h) g) (snd req)
            /\ ~ matches (get_reject_keywords (db h) g) (fst req)
            /\ ~ matches (get_accept_keywords (db h) g) (fst req)) reqs ->
  0 <= get_fail (_fail h) (fail_key g u) ->
  get_fail (_fail h) (fail_key g u) + Z.of_nat (length reqs)
  < get_max_time (db h) g ->
  fst (decide_all jconf g u reqs h)
  = map (fun _ => (if no_match_reject jconf then Some false else None,
                   NoKeyword)) reqs
  /\ db (snd (decide_all jconf g u reqs h)) = db h
  /\ get_fail (_fail (snd (decide_all jconf g u reqs h))) (fail_key g u)
     = get_fail (_fail h) (fail_key g u) + Z.of_nat (length reqs).
Proof.
  induction reqs as [|[c l] reqs IH]; intros h Hb Hall Hk Hlt.
  - simpl; repeat split; lia.
  - apply Forall_cons in Hall as [(Hl & Hr & Ha) Hall]; simpl in Hl, Hr, Ha.
    simpl length in Hlt |- *.
    destruct (decide_request_counted jconf g u c l h)
      as (h1 & E & D & F); try assumption; try lia.
    simpl; rewrite E.
    destruct (IH h1) as (I1 & I2 & I3).
    + now rewrite D.
    + now rewrite D.
    + lia.
    + rewrite D; lia.
    + destruct (decide_all jconf g u reqs h1) as [log h2]; simpl in *.
      rewrite I1, I2, I3; repeat split; [congruence | lia].
Qed.

(** X8: with an attempt limit of [n] and no failed attempt so far, [n]
    requests in a row that meet no rule are answered without a keyword
    match [n - 1] times (left to the moderators, or rejected under
    [no_match_reject]); the [n]-th is rejected for the limit and the user
    is on the block list afterwards. *)
Theorem attempt_limit jconf g u reqs last h :
  get_max_time (db h) g = Z.of_nat (length reqs) + 1 ->
  ~ In u (get_block_ids (db h) g) ->
  get_fail (_fail h) (fail_key g u) = 0 ->
  Forall (fun req =>
            passes_level (get_min_level (db h) g) (snd req)
            /\ ~ matches (get_reject_keywords (db h) g) (fst req)
            /\ ~ matches (get_accept_keywords (db h) g) (fst req))
    (reqs ++ [last])%list ->
  fst (decide_all jconf g u (reqs ++ [last])%list h)
  = (map (fun _ => (if no_match_reject jconf then Some false else None,
                    NoKeyword)) reqs
     ++ [(Some false, AttemptLimit (Z.of_nat (length reqs) + 1))])%list
  /\ In u (get_block_ids
             (db (snd (decide_all jconf g u (reqs ++ [last])%list h))) g).
Proof.
  intros Hmax Hb Hf Hall.
  apply Forall_app in Hall as [Hreqs Hlast].
  apply Forall_cons in Hlast as [(Hl & Hr & Ha) _].
  destruct (decide_all_below jconf g u reqs h) as (I1 & I2 & I3);
    try assumption; try lia.
  rewrite decide_all_app.
  destruct (decide_all jconf g u reqs h) as [log h1]; simpl in I1, I2, I3.
  destruct last as [c l]; simpl in Hl, Hr, Ha; simpl decide_all.
  rewrite decide_request_unmatched by (rewrite I2; assumption).
  rewrite count_attempt_limit by (rewrite ?I2, ?I3; lia).
  simpl; rewrite I1, I2, Hmax; split; [reflexivity|].
  apply add_block_id_blocks.
Qed.

(** X9: without an attempt limit (a limit of zero or less) requests that
    meet no rule are never counted: however many come, each gets the same
    answer and the state stays as it is. *)
Theorem no_attempt_limit jconf g u reqs h :
  get_max_time (db h) g <= 0 ->
  ~ In u (get_block_ids (db h) g) ->
  Forall (fun req =>
            passes_level (get_min_level (db h) g) (snd req)
            /\ ~ matches (get_reject_keywords (db h) g) (fst req)
            /\ ~ matches (get_accept_keywords (db h) g) (fst req)) reqs ->
  decide_all jconf g u reqs h
  = (map (fun _ => (if no_match_reject jconf then Some false else None,
                    NoKeyword)) reqs, h).
Proof.
  intros Hmax Hb Hall.
  induction Hall as [|[c l] reqs (Hl & Hr & Ha) _ IH]; [reflexivity|].
  simpl in Hl, Hr, Ha; simpl.
  rewrite decide_request_unmatched by assumption.
  unfold count_attempt.
  apply Z.ltb_ge in Hmax; rewrite Hmax; unfold unmatched.
  destruct (no_match_reject jconf); now rewrite IH.
Qed.

End JoinRules.

Section JoinRulesExamples.
Import PyStr GroupJoinData GroupJoinDataOps JoinHandle JoinSpec JoinEvents.
#[local] Existing Instance ascii_text.

Lemma reject_keyword_blacklists_witness :
  exists h',
    decide_request Scenario.jconf "100" "42" (Some "friend, buy SPAM") None
      Scenario.join0
    = (Some false, RejectKeyword, h')
    /\ In "42" (get_block_ids (db h') "100")
    /\ _fail h' = _fail Scenario.join0.
Proof.
  apply (reject_keyword_blacklists Scenario.jconf "100" "42"
           (Some "friend, buy SPAM") None Scenario.join0).
  - intros [E|[]]; discriminate E.
  - exact I.
  - apply matches_iff_existsb; reflexivity.
Defined.

Lemma level_gate_witness :
  decide_request Scenario.jconf "100" "42" (Some "a friend") (Some 9)
    Scenario.join0
  = (Some false, LevelTooLow 9 10, Scenario.join0).
Proof.
  refine (proj1 (level_gate Scenario.jconf "100" "42" (Some "a friend") 9
                   Scenario.join0 _ _ _)).
  - intros [E|[]]; discriminate E.
  - reflexivity.
  - reflexivity.
Defined.

Lemma attempt_limit_witness :
  fst (decide_all Scenario.jconf "100" "42"
         [(None, None); (Some "hi", Some 20); (Some "let me in", None)]
         Scenario.join0)
  = [(None, NoKeyword); (None, NoKeyword); (Some false, AttemptLimit 3)]
  /\ In "42" (get_block_ids
                (db (snd (decide_all Scenario.jconf "100" "42"
                            [(None, None); (Some "hi", Some 20);
                             (Some "let me in", None)]
                            Scenario.join0))) "100").
Proof.
  apply (attempt_limit Scenario.jconf "100" "42"
           [(None, None); (Some "hi", Some 20)] (Some "let me in", None)
           Scenario.join0).
  - reflexivity.
  - intros [E|[]]; discriminate E.
  - reflexivity.
  - repeat (apply Forall_cons; split;
            [split; [vm_compute; try intros [_ E']; try discriminate E'; exact I
                    | split; apply not_matches_existsb; reflexivity]|]).
    apply Forall_nil; exact I.
Defined.

Lemma no_attempt_limit_witness :
  decide_all Scenario.jconf "300" "42" [(None, None); (Some "hi", Some 1)]
    Scenario.join0
  = ([(None, NoKeyword); (None, NoKeyword)], Scenario.join0).
Proof.
  apply (no_attempt_limit Scenario.jconf "300" "42"
           [(None, None); (Some "hi", Some 1)] Scenario.join0).
  - vm_compute; discriminate.
  - intros [].
  - repeat (apply Forall_cons; split;
            [split; [vm_compute; try intros [E' _]; try discriminate E'; exact I
                    | split; apply not_matches_existsb; reflexivity]|]).
    apply Forall_nil; exact I.
Defined.

End JoinRulesExamples.

(** ** Join admission over several requests *)

Section JoinHistory.
Import PyStr GroupJoinData GroupJoinDataOps JoinHandle JoinSpec JoinEvents.
Context {L : Lower}.

(** A rejection for a reject keyword or for the attempt limit leaves the
    user on the block list. *)
Lemma rejection_blocks jconf g u comment level h m :
  snd (fst (should_approve jconf g u comment level h)) = RejectKeyword
  \/ snd (fst (should_approve jconf g u comment level h)) = AttemptLimit m ->
  In u (get_block_ids (db (snd (should_approve jconf g u comment level h))) g).
Proof.
  unfold should_approve, check_comment, count_attempt, unmatched.
  repeat match goal with
         | |- context [if ?b then _ else _] => destruct b
         | |- context [match ?x with _ => _ end] => destruct x
         end; simpl;
    intros [E|E]; try discriminate E; apply add_block_id_blocks.
Qed.

(** X10: once a request was rejected for a reject keyword or for the
    attempt limit, every later request of that user to that group is
    rejected as black-listed, whatever its comment and level, and changes
    nothing any more. *)
Theorem rejected_for_good jconf g u comment level h m comment' level' :
  snd (fst (decide_request jconf g u comment level h)) = RejectKeyword
  \/ snd (fst (decide_request jconf g u comment level h)) = AttemptLimit m ->
  decide_request jconf g u comment' level'
    (snd (decide_request jconf g u comment level h))
  = (Some false, Blacklisted, snd (decide_request jconf g u comment level h)).
Proof.
  intros Hr.
  assert (Hin : In u (get_block_ids
                        (db (snd (decide_request jconf g u comment level h)))
                        g)).
  { pose proof (rejection_blocks jconf g u comment level h m) as Hb.
    unfold decide_request in *.
    destruct (should_approve jconf g u comment level h) as [[[[|]|] r] h1];
      simpl in *; auto. }
  unfold decide_request at 1.
  now rewrite should_approve_blocked.
Qed.

Lemma contains_underscore_cons c s :
  contains "_" (String c s) = false ->
  c <> "_"%char /\ contains "_" s = false.
Proof.
  change (contains "_" (String c s))
    with (String.prefix "_" (String c s) || contains "_" s)%bool.
  intros [Hp Hc]%orb_false_iff; split; [|exact Hc].
  intros ->; destruct s; discriminate Hp.
Qed.

Lemma fail_key_cons c g u :
  fail_key (String c g) u = String c (fail_key g u).
Proof. reflexivity. Qed.

Lemma fail_key_nil u : fail_key EmptyString u = String "_" u.
Proof. reflexivity. Qed.

(** X11: the key of the attempt cache tells the (group, user) pairs apart
    as long as the group ids hold no underscore, as numeric ids do. *)
Theorem fail_key_injective g u g' u' :
  contains "_" g = false ->
  contains "_" g' = false ->
  fail_key g u = fail_key g' u' ->
  g = g' /\ u = u'.
Proof.
  revert g'; induction g as [|c g IH]; intros [|c' g'] Hg Hg' E.
  - rewrite !fail_key_nil in E; split; congruence.
  - rewrite fail_key_nil, fail_key_cons in E.
    apply contains_underscore_cons in Hg' as [Hc _]; congruence.
  - rewrite fail_key_nil, fail_key_cons in E.
    apply contains_underscore_cons in Hg as [Hc _]; congruence.
  - rewrite !fail_key_cons in E; injection E as -> E.
    apply contains_underscore_cons in Hg as [_ Hg].
    apply contains_underscore_cons in Hg' as [_ Hg'].
    destruct (IH g' Hg Hg' E) as [-> ->]; split; reflexivity.
Qed.

(** With an underscore in a group id two pairs can share a counter. *)
Example fail_key_collision : fail_key "1_2" "3" = fail_key "1" "2_3".
Proof. reflexivity. Qed.

End JoinHistory.

Section JoinHistoryExamples.
Import PyStr GroupJoinData GroupJoinDataOps JoinHandle JoinSpec JoinEvents.
#[local] Existing Instance ascii_text.

Lemma rejected_for_good_witness :
  decide_request Scenario.jconf "100" "42" (Some "a friend") (Some 99)
    (snd (decide_request Scenario.jconf "100" "42" (Some "hello") None
            Scenario.join2))
  = (Some false, Blacklisted,
     snd (decide_request Scenario.jconf "100" "42" (Some "hello") None
            Scenario.join2)).
Proof.
  apply (rejected_for_good Scenario.jconf "100" "42" (Some "hello") None
           Scenario.join2 3 (Some "a friend") (Some 99)).
  right; reflexivity.
Defined.

Lemma fail_key_injective_witness :
  "100" = "100" /\ "42" = "42".
Proof.
  apply (fail_key_injective "100" "42" "100" "42"); reflexivity.
Defined.

End JoinHistoryExamples.

(** ** Join events *)

Section JoinEventProps.
Import PyStr GroupJoinData GroupJoinDataOps JoinHandle JoinSpec JoinEvents.
Context {L : Lower}.

Lemma ensure_group_lookup jconf g cfg :
  is_Some (ensure_group jconf g cfg !! g).
Proof.
  unfold ensure_group; destruct (cfg !! g) eqn:E.
  - rewrite E; eauto.
  - rewrite lookup_insert_eq; eauto.
Qed.

Lemma ensure_group_idem jconf g cfg :
  ensure_group jconf g (ensure_group jconf g cfg) = ensure_group jconf g cfg.
Proof.
  destruct (ensure_group_lookup jconf g cfg) as [c E].
  now apply get_ensure_group_some with c.
Qed.

Lemma ensure_group_add_block_id jconf g u cfg :
  ensure_group jconf g (add_block_id jconf g u cfg)
  = add_block_id jconf g u cfg.
Proof.
  unfold add_block_id, set_block_ids.
  eapply get_ensure_group_some; apply lookup_insert_eq.
Qed.

Lemma get_switch_add_block_id jconf g u cfg :
  get_switch (add_block_id jconf g u cfg) g
  = get_switch (ensure_group jconf g cfg) g.
Proof.
  unfold get_switch, add_block_id, set_block_ids, get at 1.
  now rewrite lookup_insert_eq.
Qed.

(** The block lists do not see whether a group has its default settings
    or none. *)
Lemma get_block_ids_ensure_group jconf g g' cfg :
  get_block_ids (ensure_group jconf g cfg) g' = get_block_ids cfg g'.
Proof.
  unfold get_block_ids, get.
  destruct (decide (g' = g)) as [->|Hne].
  - unfold ensure_group; destruct (cfg !! g) eqn:E.
    + now rewrite E.
    + now rewrite lookup_insert_eq.
  - now rewrite ensure_group_other.
Qed.

(** X12: while the switch of the group is off, [event_monitoring] calls
    nothing whatever the event is, leaves the attempt cache and every
    block list as they are, and at most creates the default settings of
    the group. *)
Theorem switch_off_does_nothing jconf nconf raw info self_id h :
  get_switch (ensure_group jconf (raw_group_id raw) (db h)) (raw_group_id raw)
  = false ->
  snd (event_monitoring jconf nconf raw info self_id h) = []
  /\ db (fst (event_monitoring jconf nconf raw info self_id h))
     = ensure_group jconf (raw_group_id raw) (db h)
  /\ _fail (fst (event_monitoring jconf nconf raw info self_id h)) = _fail h
  /\ forall g',
       get_block_ids (db (fst (event_monitoring jconf nconf raw info self_id h)))
         g'
       = get_block_ids (db h) g'.
Proof.
  intros Hoff; unfold event_monitoring; simpl db; rewrite Hoff; simpl.
  repeat split; intros g'; apply get_block_ids_ensure_group.
Qed.

(** X13: with [leave_notify] and [leave_block] set and the switch of the
    group on, a member who leaves is put on the block list without any
    call, and a later join request of that user is rejected as
    black-listed whatever it says. *)
Theorem leave_then_request jconf nconf leave req info info' self_id h :
  leave_notify nconf = true ->
  leave_block nconf = true ->
  post_type leave = Some "notice"
  /\ notice_type leave = Some "group_decrease"
  /\ sub_type leave = Some "leave" ->
  post_type req = Some "request"
  /\ request_type req = Some "group"
  /\ sub_type req = Some "add" ->
  raw_group_id req = raw_group_id leave ->
  raw_user_id req = raw_user_id leave ->
  get_switch (ensure_group jconf (raw_group_id leave) (db h))
    (raw_group_id leave) = true ->
  snd (event_monitoring jconf nconf leave info self_id h) = []
  /\ event_monitoring jconf nconf req info' self_id
       (fst (event_monitoring jconf nconf leave info self_id h))
     = (fst (event_monitoring jconf nconf leave info self_id h),
        [SetGroupAddRequest (raw_flag req) false (Some Blacklisted)]).
Proof.
  intros Hn Hb (L1 & L2 & L3) (R1 & R2 & R3) Hg Hu Hon.
  assert (E : event_monitoring jconf nconf leave info self_id h
              = ({| db := add_block_id jconf (raw_group_id leave)
                            (raw_user_id leave)
                            (ensure_group jconf (raw_group_id leave) (db h));
                    _fail := _fail h |}, [])).
  { unfold event_monitoring; simpl db; rewrite Hon, L1, L2, L3, Hn, Hb.
    reflexivity. }
  rewrite E; simpl; split; [reflexivity|].
  unfold event_monitoring; simpl db; simpl _fail.
  rewrite Hg, Hu, ensure_group_add_block_id, get_switch_add_block_id,
    ensure_group_idem, Hon, R1, R2, R3; simpl.
  unfold decide_request.
  rewrite should_approve_blocked by apply add_block_id_blocks.
  reflexivity.
Qed.

Lemma decide_request_unknown_level jconf g u comment h lvl m :
  snd (fst (decide_request jconf g u comment None h)) <> LevelTooLow lvl m.
Proof.
  unfold decide_request.
  destruct (In_dec string_dec u (get_block_ids (db h) g)) as [Hb|Hb].
  { rewrite should_approve_blocked by exact Hb; discriminate. }
  rewrite should_approve_past_gate by (assumption || exact I).
  destruct (matches_dec (get_reject_keywords (db h) g) comment) as [Hr|Hr].
  { rewrite check_comment_reject by exact Hr; discriminate. }
  destruct (matches_dec (get_accept_keywords (db h) g) comment) as [Ha|Ha].
  { rewrite check_comment_accept by assumption; discriminate. }
  rewrite check_comment_unmatched by assumption.
  unfold count_attempt, unmatched.
  repeat match goal with
         | |- context [if ?b then _ else _] => destruct b
         end; discriminate.
Qed.

(** X14: a join request of a user whose level is hidden, or whose
    [qqLevel] is missing or zero while no [level] is given, is handled as
    one of unknown level: it is never rejected for the level, whatever the
    minimum level of the group. *)
Theorem unknown_level_passes jconf nconf raw info self_id h flag lvl m :
  isHideQQLevel info = true
  \/ ((qqLevel info = None \/ qqLevel info = Some 0) /\ info_level info = None) ->
  request_level info = None
  /\ ~ In (SetGroupAddRequest flag false (Some (LevelTooLow lvl m)))
         (snd (event_monitoring jconf nconf raw info self_id h)).
Proof.
  intros Hinfo.
  assert (E : request_level info = None).
  { unfold request_level, py_or.
    destruct Hinfo as [-> | [[-> | ->] ->]]; [reflexivity| |];
      destruct (isHideQQLevel info); reflexivity. }
  split; [exact E|].
  unfold event_monitoring; rewrite E.
  pose proof (decide_request_unknown_level jconf (raw_group_id raw)
                (raw_user_id raw) (raw_comment raw)
                {| db := ensure_group jconf (raw_group_id raw) (db h);
                   _fail := _fail h |} lvl m) as Hno.
  destruct (negb _); [intros []|].
  destruct (_ && _ && _)%bool.
  - destruct (decide_request _ _ _ _ _ _) as [[[a|] r] h']; simpl in *;
      [|intros []].
    destruct a; intros [Hc|[]]; congruence.
  - destruct (_ && _ && _ && _)%bool.
    + destruct (leave_block nconf); intros [].
    + destruct (_ && _)%bool; [|intros []].
      destruct (0 <? _)%Z; [intros [Hc|[]]; discriminate Hc | intros []].
Qed.

End JoinEventProps.

Section JoinEventPropsExamples.
Import PyStr GroupJoinData GroupJoinDataOps JoinHandle JoinSpec JoinEvents.
#[local] Existing Instance ascii_text.

Lemma switch_off_does_nothing_witness :
  snd (event_monitoring
         {| default_switch := false; default_min_level := 0;
            default_max_time := 3; no_match_reject := true |}
         {| leave_notify := true; leave_block := true; join_ban_time := 60 |}
         {| post_type := Some "request"; request_type := Some "group";
            sub_type := Some "add"; notice_type := None;
            raw_group_id := "200"; raw_user_id := "42";
            raw_comment := Some "spam"; raw_flag := "f1" |}
         {| isHideQQLevel := false; qqLevel := Some 1; info_level := None |}
         "1" Scenario.join0)
  = [].
Proof.
  refine (proj1 (switch_off_does_nothing _ _ _ _ _ _ _)).
  reflexivity.
Defined.

Lemma leave_then_request_witness :
  event_monitoring Scenario.jconf
    {| leave_notify := true; leave_block := true; join_ban_time := 0 |}
    {| post_type := Some "request"; request_type := Some "group";
       sub_type := Some "add"; notice_type := None;
       raw_group_id := "100"; raw_user_id := "42";
       raw_comment := Some "a friend"; raw_flag := "f2" |}
    {| isHideQQLevel := false; qqLevel := Some 50; info_level := None |} "1"
    (fst (event_monitoring Scenario.jconf
            {| leave_notify := true; leave_block := true; join_ban_time := 0 |}
            {| post_type := Some "notice"; request_type := None;
               sub_type := Some "leave"; notice_type := Some "group_decrease";
               raw_group_id := "100"; raw_user_id := "42";
               raw_comment := None; raw_flag := EmptyString |}
            {| isHideQQLevel := true; qqLevel := None; info_level := None |}
            "1" Scenario.join0))
  = (fst (event_monitoring Scenario.jconf
            {| leave_notify := true; leave_block := true; join_ban_time := 0 |}
            {| post_type := Some "notice"; request_type := None;
               sub_type := Some "leave"; notice_type := Some "group_decrease";
               raw_group_id := "100"; raw_user_id := "42";
               raw_comment := None; raw_flag := EmptyString |}
            {| isHideQQLevel := true; qqLevel := None; info_level := None |}
            "1" Scenario.join0),
     [SetGroupAddRequest "f2" false (Some Blacklisted)]).
Proof.
  refine (proj2 (leave_then_request _ _ _ _ _ _ _ _ _ _ _ _ _ _ _));
    try reflexivity; repeat split; reflexivity.
Defined.

Lemma unknown_level_passes_witness :
  request_level
    {| isHideQQLevel := false; qqLevel := Some 0; info_level := None |} = None.
Proof.
  refine (proj1 (unknown_level_passes Scenario.jconf
                   {| leave_notify := false; leave_block := false;
                      join_ban_time := 0 |}
                   {| post_type := Some "request"; request_type := Some "group";
                      sub_type := Some "add"; notice_type := None;
                      raw_group_id := "100"; raw_user_id := "42";
                      raw_comment := None; raw_flag := "f3" |}
                   {| isHideQQLevel := false; qqLevel := Some 0;
                      info_level := None |}
                   "1" Scenario.join0 "f3" 0 10 _)).
  right; split; [right; reflexivity | reflexivity].
Defined.

End JoinEventPropsExamples.


(** ** Ban words *)

Section BanWords.
Import PyStr BanproHandle BanproWords WordsSpec.

Lemma fromkeys_fill l : fromkeys l = fill [] l.
Proof. reflexivity. Qed.

Lemma fill_cons keys x l :
  fill keys (x :: l)
  = fill (if existsb (String.eqb x) keys then keys else keys ++ [x])%list l.
Proof. reflexivity. Qed.

Lemma existsb_eqb_In x (keys : list string) :
  existsb (String.eqb x) keys = true <-> In x keys.
Proof.
  rewrite existsb_exists; split.
  - intros (y & Hin & ->%String.eqb_eq); exact Hin.
  - intros Hin; exists x; split; [exact Hin | apply String.eqb_refl].
Qed.

Lemma fill_In keys l x : In x (fill keys l) <-> In x keys \/ In x l.
Proof.
  revert keys; induction l as [|y l IH]; intros keys.
  - simpl; tauto.
  - rewrite fill_cons, IH; simpl.
    destruct (existsb (String.eqb y) keys) eqn:E.
    + apply existsb_eqb_In in E; split; [tauto|].
      intros [H|[<-|H]]; tauto.
    + rewrite in_app_iff; simpl; tauto.
Qed.

Lemma fill_NoDup keys l : List.NoDup keys -> List.NoDup (fill keys l).
Proof.
  revert keys; induction l as [|y l IH]; intros keys Hnd; [exact Hnd|].
  rewrite fill_cons; apply IH.
  destruct (existsb (String.eqb y) keys) eqn:E; [exact Hnd|].
  apply List.NoDup_app; [exact Hnd | |].
  - constructor; [intros [] | constructor].
  - intros x Hin [<-|[]].
    apply existsb_eqb_In in Hin; congruence.
Qed.

Lemma fill_extends keys l : exists added, fill keys l = (keys ++ added)%list.
Proof.
  revert keys; induction l as [|y l IH]; intros keys.
  - exists []; simpl; now rewrite app_nil_r.
  - rewrite fill_cons.
    destruct (existsb (String.eqb y) keys); [apply IH|].
    destruct (IH (keys ++ [y])%list) as [added ->].
    exists (y :: added); now rewrite <- app_assoc.
Qed.

Lemma fill_known keys l : (forall x, In x l -> In x keys) -> fill keys l = keys.
Proof.
  revert keys; induction l as [|y l IH]; intros keys Hall; [reflexivity|].
  rewrite fill_cons.
  assert (E : existsb (String.eqb y) keys = true)
    by (apply existsb_eqb_In, Hall; now left).
  rewrite E; apply IH; intros x Hx; apply Hall; now right.
Qed.

Lemma fill_app keys l1 l2 : fill keys (l1 ++ l2) = fill (fill keys l1) l2.
Proof. unfold fill; apply fold_left_app. Qed.

Lemma fill_self keys l :
  List.NoDup (keys ++ l) -> fill keys l = (keys ++ l)%list.
Proof.
  revert keys; induction l as [|y l IH]; intros keys Hnd.
  - simpl; now rewrite app_nil_r.
  - rewrite fill_cons.
    assert (E : existsb (String.eqb y) keys = false).
    { apply not_true_iff_false; intros Hin%existsb_eqb_In.
      apply List.NoDup_remove_2 in Hnd; apply Hnd.
      apply in_or_app; now left. }
    rewrite E, IH, <- app_assoc; [reflexivity|].
    now rewrite <- app_assoc.
Qed.

Lemma get_words_add gid x new words :
  get_words (handle_add_ban_words gid (x :: new) words) gid
  = fill [] (get_words words gid ++ x :: new)%list.
Proof. unfold handle_add_ban_words, get_words; now rewrite lookup_insert_eq. Qed.

(** X15: adding ban words gives a list without repetitions that holds
    exactly the words that were there and the new ones; when the list had
    no repetitions it stays in front, in its order; adding the same words
    once more changes nothing; the lists of other groups are untouched. *)
Theorem add_ban_words_merges gid new words :
  new <> [] ->
  List.NoDup (get_words (handle_add_ban_words gid new words) gid)
  /\ (forall w,
        In w (get_words (handle_add_ban_words gid new words) gid)
        <-> In w (get_words words gid) \/ In w new)
  /\ (List.NoDup (get_words words gid) ->
      exists added,
        get_words (handle_add_ban_words gid new words) gid
        = (get_words words gid ++ added)%list)
  /\ handle_add_ban_words gid new (handle_add_ban_words gid new words)
     = handle_add_ban_words gid new words
  /\ forall g', g' <> gid ->
       get_words (handle_add_ban_words gid new words) g' = get_words words g'.
Proof.
  destruct new as [|x new]; [congruence | intros _].
  rewrite get_words_add.
  assert (Hnd : List.NoDup (fill [] (get_words words gid ++ x :: new)%list))
    by (apply fill_NoDup; constructor).
  split; [exact Hnd|]; split; [|split; [|split]].
  - intros w; rewrite fill_In, in_app_iff; simpl; tauto.
  - intros He; rewrite fill_app, (fill_self [] _ He); apply fill_extends.
  - unfold handle_add_ban_words at 1.
    rewrite get_words_add, fromkeys_fill.
    rewrite fill_app, (fill_self [] _ Hnd); simpl app.
    rewrite fill_known.
    + unfold handle_add_ban_words; apply insert_insert_eq.
    + intros w Hw; apply fill_In; right; apply in_or_app; now right.
  - intros g' Hne; unfold handle_add_ban_words, get_words.
    now rewrite lookup_insert_ne by congruence.
Qed.

Lemma add_ban_words_merges_witness :
  get_words (handle_add_ban_words "100" ["b"; "a"; "c"; "c"]
               {[ "100" := ["a"; "b"] ]}) "100"
  = ["a"; "b"; "c"]
  /\ List.NoDup (get_words (handle_add_ban_words "100" ["b"; "a"; "c"; "c"]
                              {[ "100" := ["a"; "b"] ]}) "100").
Proof.
  split; [reflexivity|].
  refine (proj1 (add_ban_words_merges "100" ["b"; "a"; "c"; "c"]
                   {[ "100" := ["a"; "b"] ]} _)).
  discriminate.
Defined.

Lemma check_ban_words_spec db ev message_str message_id ban_words :
  check_ban_words db ev message_str message_id ban_words
  = if existsb (fun word => contains word message_str) ban_words
    then (true,
          DeleteMsg message_id ::
          (if (0 <? QQAdminDB.get db (group_id ev) "word_ban_time" 0)%Z
           then [SetGroupBan
                   {| ban_group := group_id ev; ban_user := sender_id ev;
                      ban_duration :=
                        QQAdminDB.get db (group_id ev) "word_ban_time" 0 |}]
           else []))
    else (false, []).
Proof.
  induction ban_words as [|w rest IH]; simpl; [reflexivity|].
  destruct (contains w message_str); [reflexivity | exact IH].
Qed.

Lemma existsb_occurs message_str (ban_words : list string) :
  existsb (fun word => contains word message_str) ban_words = true
  <-> exists w, In w ban_words /\ occurs w message_str.
Proof.
  rewrite existsb_exists; unfold occurs.
  split; intros (w & Hin & Hw); exists w; (split; [exact Hin|]);
    now apply contains_spec.
Qed.

(** X16: a message that holds a custom ban word, or a built-in one while
    the built-in list is enabled, is deleted once, and its sender is muted
    once, for the group's word-ban time, exactly when that time is
    positive; any other message causes no call. *)
Theorem on_ban_words_spec db ev message_str message_id custom
    builtin_enabled builtin :
  (hit message_str custom builtin_enabled builtin ->
   on_ban_words db ev message_str message_id custom builtin_enabled builtin
   = DeleteMsg message_id ::
     (if (0 <? QQAdminDB.get db (group_id ev) "word_ban_time" 0)%Z
      then [SetGroupBan
              {| ban_group := group_id ev; ban_user := sender_id ev;
                 ban_duration :=
                   QQAdminDB.get db (group_id ev) "word_ban_time" 0 |}]
      else []))
  /\ (~ hit message_str custom builtin_enabled builtin ->
      on_ban_words db ev message_str message_id custom builtin_enabled builtin
      = []).
Proof.
  set (c := existsb (fun word => contains word message_str) custom).
  set (b := existsb (fun word => contains word message_str) builtin).
  assert (E : on_ban_words db ev message_str message_id custom
                builtin_enabled builtin
              = if (c || (builtin_enabled && b))%bool
                then DeleteMsg message_id ::
                     (if (0 <? QQAdminDB.get db (group_id ev) "word_ban_time" 0)%Z
                      then [SetGroupBan
                              {| ban_group := group_id ev;
                                 ban_user := sender_id ev;
                                 ban_duration :=
                                   QQAdminDB.get db (group_id ev)
                                     "word_ban_time" 0 |}]
                      else [])
                else []).
  { unfold on_ban_words.
    rewrite !check_ban_words_spec; fold c b.
    destruct custom as [|w custom]; [|set (c' := w :: custom) in *].
    - simpl in c; subst c; destruct builtin_enabled; simpl; [|reflexivity].
      now destruct b.
    - destruct c; simpl; [now destruct builtin_enabled|].
      destruct builtin_enabled; simpl; [|reflexivity].
      now destruct b. }
  assert (Hh : hit message_str custom builtin_enabled builtin
               <-> (c || (builtin_enabled && b))%bool = true).
  { unfold hit, c, b.
    rewrite orb_true_iff, andb_true_iff, !existsb_occurs; reflexivity. }
  rewrite E; split; intros H.
  - apply Hh in H; now rewrite H.
  - destruct (c || (builtin_enabled && b))%bool; [|reflexivity].
    exfalso; apply H, Hh; reflexivity.
Qed.

(** A custom ban word in the message is enough. *)
Lemma on_ban_words_custom_hit db ev message_str message_id custom
    builtin_enabled builtin w :
  In w custom ->
  occurs w message_str ->
  on_ban_words db ev message_str message_id custom builtin_enabled builtin
  = DeleteMsg message_id ::
    (if (0 <? QQAdminDB.get db (group_id ev) "word_ban_time" 0)%Z
     then [SetGroupBan
             {| ban_group := group_id ev; ban_user := sender_id ev;
                ban_duration :=
                  QQAdminDB.get db (group_id ev) "word_ban_time" 0 |}]
     else []).
Proof.
  intros Hin Hocc.
  assert (E : existsb (fun word => contains word message_str) custom = true)
    by (apply existsb_occurs; exists w; split; assumption).
  unfold on_ban_words; rewrite check_ban_words_spec, E.
  destruct custom as [|c custom]; [destruct Hin|].
  now destruct builtin_enabled.
Qed.

(** X17: the value the flood-duration command writes is the mute time of
    the ban words: after [handle_spamming_ban_time] with [t], a message of
    that group with a custom ban word is deleted and its sender muted for
    [t] seconds, or not muted at all when [t] is zero or less. *)
Theorem flood_command_sets_word_mute ev t db message_str message_id custom
    builtin_enabled builtin w :
  In w custom ->
  occurs w message_str ->
  on_ban_words (handle_spamming_ban_time ev (Some t) db) ev message_str
    message_id custom builtin_enabled builtin
  = DeleteMsg message_id ::
    (if (0 <? t)%Z
     then [SetGroupBan {| ban_group := group_id ev; ban_user := sender_id ev;
                          ban_duration := t |}]
     else []).
Proof.
  intros Hin Hocc.
  rewrite (on_ban_words_custom_hit _ _ _ _ _ _ _ w Hin Hocc).
  unfold handle_spamming_ban_time, QQAdminDB.get, QQAdminDB.set.
  now rewrite lookup_insert_eq.
Qed.

Lemma flood_command_sets_word_mute_witness :
  on_ban_words
    (handle_spamming_ban_time Scenario.flood_ev (Some 0) Scenario.flood_db)
    Scenario.flood_ev "buy cheap pills" 7 ["pills"] false []
  = [DeleteMsg 7].
Proof.
  apply (flood_command_sets_word_mute Scenario.flood_ev 0 Scenario.flood_db
           "buy cheap pills" 7 ["pills"] false [] "pills").
  - left; reflexivity.
  - exists "buy cheap ", EmptyString; reflexivity.
Defined.

End BanWords.

(** ** Link recall *)

Section LinkRecall.
Import PyStr BanproHandle BanproWords.
Context {L : Lower}.

Lemma recall_first_spec message_id url_matches whitelist :
  recall_first message_id url_matches whitelist
  = if existsb (fun url => negb (_is_url_whitelisted url whitelist)) url_matches
    then [DeleteMsg message_id] else [].
Proof.
  induction url_matches as [|url rest IH]; simpl; [reflexivity|].
  destruct (_is_url_whitelisted url whitelist); simpl; [exact IH | reflexivity].
Qed.

(** X18: [on_link_recall] deletes the message, with one call, exactly
    when link recall is enabled and some link found in it is not
    white-listed (its domain, taken from the lowercased link, neither
    equals a lowercased entry nor ends with a dot and that entry); with
    an empty white list every message with a link is deleted. *)
Theorem on_link_recall_spec enabled message_id url_matches whitelist :
  (on_link_recall enabled message_id url_matches whitelist
   = [DeleteMsg message_id]
   <-> enabled = true
       /\ exists url,
            In url url_matches
            /\ ~ LinkGuardSpec.whitelisted_lowered_first url whitelist)
  /\ (on_link_recall enabled message_id url_matches whitelist = []
      \/ on_link_recall enabled message_id url_matches whitelist
         = [DeleteMsg message_id])
  /\ (enabled = true -> url_matches <> [] ->
      on_link_recall enabled message_id url_matches [] = [DeleteMsg message_id]).
Proof.
  unfold on_link_recall; rewrite !recall_first_spec.
  assert (Hex : existsb (fun url => negb (_is_url_whitelisted url whitelist))
                  url_matches = true
                <-> exists url,
                      In url url_matches
                      /\ ~ LinkGuardSpec.whitelisted_lowered_first url
                            whitelist).
  { rewrite existsb_exists; split; intros (url & Hin & Hw); exists url;
      (split; [exact Hin|]).
    - apply negb_true_iff in Hw; intros Hc%is_url_whitelisted_iff; congruence.
    - apply negb_true_iff, not_true_iff_false.
      intros Hc%is_url_whitelisted_iff; contradiction. }
  split; [|split].
  - destruct enabled; simpl.
    + destruct (existsb _ url_matches).
      * split; [intros _; split; [reflexivity | now apply Hex] | reflexivity].
      * split; [discriminate | intros [_ Hc%Hex]; discriminate].
    + split; [discriminate | intros [Hc _]; discriminate].
  - destruct enabled; simpl; [|now left].
    destruct (existsb _ url_matches); [now right | now left].
  - intros -> Hne; simpl.
    destruct url_matches as [|url rest]; [congruence | reflexivity].
Qed.

(** A text without a slash has no scheme in front. *)
Lemma no_scheme_without_slash s :
  contains "/" s = false ->
  startswith s "http://" = false /\ startswith s "https://" = false.
Proof.
  intros Hs; pose proof (split_head_whole s Hs) as Hw.
  unfold startswith; split; apply not_true_iff_false;
    intros [rest E]%prefix_spec; rewrite E in Hw;
    repeat rewrite app_String in Hw; simpl in Hw;
    apply (f_equal String.length) in Hw; simpl in Hw;
    rewrite ?length_app_string in Hw; simpl in Hw; lia.
Qed.

Lemma url_domain_host s : contains "/" s = false -> url_domain s = lower s.
Proof.
  intros Hs; unfold url_domain.
  pose proof (lower_no_slash s Hs) as Hl.
  destruct (no_scheme_without_slash (lower s) Hl) as [-> ->].
  now apply split_head_whole.
Qed.

Lemma url_domain_https rest :
  url_domain ("https://" ++ rest) = split_head "/" (lower rest).
Proof.
  unfold url_domain; rewrite lower_https.
  change (startswith ("https://" ++ lower rest) "http://") with false.
  cbv iota.
  assert (E : startswith ("https://" ++ lower rest) "https://" = true)
    by (apply prefix_spec; eauto).
  rewrite E; change 8%nat with (String.length "https://").
  now rewrite drop_app_length.
Qed.

Lemma url_domain_http rest :
  url_domain ("http://" ++ rest) = split_head "/" (lower rest).
Proof.
  unfold url_domain; rewrite lower_http.
  assert (E : startswith ("http://" ++ lower rest) "http://" = true)
    by (apply prefix_spec; eauto).
  rewrite E; change 7%nat with (String.length "http://").
  now rewrite drop_app_length.
Qed.

(** X19: the verdict on a link depends on its host only: for a host
    without a slash, the link with an [http://] or [https://] scheme in
    front and any path behind is white-listed exactly when the bare host
    is. *)
Theorem scheme_and_path_ignored host path whitelist :
  contains "/" host = false ->
  _is_url_whitelisted ("https://" ++ host ++ String "/" path) whitelist
  = _is_url_whitelisted host whitelist
  /\ _is_url_whitelisted ("http://" ++ host ++ String "/" path) whitelist
     = _is_url_whitelisted host whitelist
  /\ _is_url_whitelisted ("https://" ++ host) whitelist
     = _is_url_whitelisted host whitelist
  /\ _is_url_whitelisted ("http://" ++ host) whitelist
     = _is_url_whitelisted host whitelist.
Proof.
  intros Hs; unfold _is_url_whitelisted.
  rewrite !url_domain_https, !url_domain_http, lower_slash.
  pose proof (lower_no_slash host Hs) as Hl.
  rewrite (split_head_host (lower host) (lower path) Hl).
  rewrite (split_head_whole (lower host) Hl).
  rewrite (url_domain_host host Hs); auto.
Qed.

End LinkRecall.

Section LinkRecallExamples.
Import PyStr BanproHandle BanproWords.
#[local] Existing Instance ascii_text.

Lemma scheme_and_path_ignored_witness :
  _is_url_whitelisted "https://Sub.Example.com/a/b?c=d" ["example.com"]
  = _is_url_whitelisted "Sub.Example.com" ["example.com"].
Proof.
  refine (proj1 (scheme_and_path_ignored "Sub.Example.com" "a/b?c=d"
                   ["example.com"] _)).
  reflexivity.
Defined.

End LinkRecallExamples.

(** ** Ban time of the configuration *)

Section BanTime.
Import PluginConfig.

(** X20: when the configured range leaves room between one second and a
    month, [get_ban_time] always answers, with a time inside the clamped
    range and hence between one second and a month: a requested time is
    clamped into the range and returned as it is when already inside, and
    no request or a request of zero gives the random draw. *)
Theorem get_ban_time_in_range lo hi seconds rand :
  Z.max lo 1 <= Z.min hi 2592000 ->
  Z.max lo 1 <= rand <= Z.min hi 2592000 ->
  exists t,
    get_ban_time (init_ban_range lo hi) seconds rand = Some t
    /\ Z.max lo 1 <= t <= Z.min hi 2592000
    /\ 1 <= t <= 2592000
    /\ (forall s, seconds = Some s -> s <> 0 ->
        Z.max lo 1 <= s <= Z.min hi 2592000 -> t = s)
    /\ (seconds = None \/ seconds = Some 0 -> t = rand).
Proof.
  intros Hrange Hrand; unfold get_ban_time, init_ban_range; simpl.
  assert (E : (Z.min hi 2592000 <? Z.max lo 1)%Z = false)
    by (apply Z.ltb_ge; lia).
  rewrite E.
  destruct seconds as [s|].
  - destruct (Z.eqb_spec s 0) as [->|Hs].
    + exists rand; repeat split; try lia; intros s [= <-]; congruence.
    + exists (Z.min (Z.max s (Z.max lo 1)) (Z.min hi 2592000)).
      repeat split; try lia.
      * intros s' [= <-] _ Hin; lia.
      * intros [Hc|[= Hc]]; congruence.
  - exists rand; repeat split; try lia; discriminate.
Qed.

Lemma get_ban_time_in_range_witness :
  exists t,
    get_ban_time (init_ban_range 30 300) (Some 100000) 45 = Some t
    /\ 30 <= t <= 300.
Proof.
  destruct (get_ban_time_in_range 30 300 (Some 100000) 45) as (t & E & B & _).
  - vm_compute; discriminate.
  - split; vm_compute; discriminate.
  - exists t; split; [exact E | exact B].
Defined.

(** X21: when the configured range is empty after clamping, a request
    for a random time fails, and a requested time always comes back as the
    upper bound, which is below the lower one. *)
Theorem get_ban_time_empty_range lo hi rand :
  Z.min hi 2592000 < Z.max lo 1 ->
  get_ban_time (init_ban_range lo hi) None rand = None
  /\ get_ban_time (init_ban_range lo hi) (Some 0) rand = None
  /\ forall s, s <> 0 ->
       get_ban_time (init_ban_range lo hi) (Some s) rand
       = Some (Z.min hi 2592000).
Proof.
  intros Hempty; unfold get_ban_time, init_ban_range; simpl.
  assert (E : (Z.min hi 2592000 <? Z.max lo 1)%Z = true)
    by (apply Z.ltb_lt; lia).
  rewrite E; repeat split.
  intros s Hs; apply Z.eqb_neq in Hs; rewrite Hs; f_equal; lia.
Qed.

Lemma get_ban_time_empty_range_witness :
  get_ban_time (init_ban_range 300 30) (Some 100) 0 = Some 30.
Proof.
  refine (proj2 (proj2 (get_ban_time_empty_range 300 30 0 _)) 100 _).
  - reflexivity.
  - discriminate.
Defined.

End BanTime.


(** ** Flood detector, frame and window *)

Section FloodFrame.
Import BanproHandle FloodSpec FloodInv.
Context {T : Type} `{Clock T}.

Lemma length_deque_append {A} n (d : list A) x :
  length (deque_append n d x) = Nat.min (length d + 1) n.
Proof.
  unfold deque_append; rewrite length_drop, length_app; simpl; lia.
Qed.

(** What a call leaves behind: the handle itself, or the handle with the
    window and possibly the last ban of the sender replaced. *)
Lemma spamming_ban_shape db ev now (h : handle T) :
  spamming_ban db ev now h = (h, [])
  \/ spamming_ban db ev now h
     = record_message (QQAdminDB.get db (group_id ev) "spamming_ban_time" 0)
         (group_id ev) (sender_id ev) now h.
Proof.
  unfold spamming_ban.
  destruct (_ || _ || _)%bool; [now left|].
  destruct (t_ltb _ _); [now left | now right].
Qed.

(** X22: the flood detector and the votes do not touch each other's
    state: [spamming_ban] changes neither the vote sessions nor the
    pending settlements nor the window and last ban of any other (group,
    sender) pair, and no vote handler changes a window or a last ban. *)
Theorem flood_and_votes_apart :
  (forall db ev (now : T) h,
      vote_cache (fst (spamming_ban db ev now h)) = vote_cache h
      /\ settle_tasks (fst (spamming_ban db ev now h)) = settle_tasks h
      /\ forall k, k <> (group_id ev, sender_id ev) ->
           msg_timestamps (fst (spamming_ban db ev now h)) !! k
           = msg_timestamps h !! k
           /\ last_banned_time (fst (spamming_ban db ev now h)) !! k
              = last_banned_time h !! k)
  /\ (forall conf (a : action T) h,
        msg_timestamps (fst (fst (step conf a h))) = msg_timestamps h
        /\ last_banned_time (fst (fst (step conf a h))) = last_banned_time h).
Proof.
  split.
  - intros db ev now h.
    destruct (spamming_ban_shape db ev now h) as [-> | ->]; [auto|].
    unfold record_message.
    destruct (_ && _)%bool; simpl;
      (split; [reflexivity | split; [reflexivity|]]);
      intros k Hk; rewrite ?lookup_insert_ne by congruence; auto.
  - intros conf [ev ban_time rand now | ev agree | i now io] h; simpl.
    + unfold start_vote_mute.
      destruct (ats ev); [auto|].
      destruct ban_time as [b|]; [destruct (b =? 0)%Z|];
        try destruct (randint _ _);
        try destruct (vote_cache h !! group_id ev); auto.
    + unfold vote_mute.
      destruct (vote_cache h !! group_id ev); [|auto].
      repeat match goal with
             | |- context [if ?b then _ else _] => destruct b
             end; auto.
    + unfold wake.
      destruct (settle_tasks h !! i) as [[gid due]|]; [|auto].
      destruct (t_ltb now due); [auto|].
      unfold settle_vote.
      destruct (vote_cache h !! gid); [|auto].
      repeat match goal with
             | |- context [if ?b then _ else _] => destruct b
             end; auto.
Qed.

(** X23: the windows stay within five timestamps: a call of
    [spamming_ban], and so any sequence of calls, keeps every window
    bounded. *)
Theorem windows_stay_bounded db ev times (h : handle T) :
  windows_bounded h ->
  (forall now, windows_bounded (fst (spamming_ban db ev now h)))
  /\ windows_bounded (fst (spamming_ban_all db ev times h)).
Proof.
  assert (Step : forall now (h0 : handle T),
             windows_bounded h0 ->
             windows_bounded (fst (spamming_ban db ev now h0))).
  { intros now h0 Hb.
    destruct (spamming_ban_shape db ev now h0) as [-> | ->]; [exact Hb|].
    unfold record_message.
    destruct (_ && _)%bool; simpl; intros k d; simpl;
      (destruct (decide (k = (group_id ev, sender_id ev))) as [->|Hne];
       [rewrite lookup_insert_eq; intros [= <-]
       |rewrite lookup_insert_ne by congruence; apply Hb]).
    - simpl; unfold spamming_count; lia.
    - rewrite length_deque_append; lia. }
  intros Hb; split; [intros now; now apply Step|].
  revert h Hb; induction times as [|now times IH]; intros h Hb; [exact Hb|].
  simpl.
  pose proof (Step now h Hb) as Hb1.
  destruct (spamming_ban db ev now h) as [h1 bans]; simpl in Hb1.
  specialize (IH h1 Hb1).
  destruct (spamming_ban_all db ev times h1) as [h2 log]; exact IH.
Qed.

Lemma get_timestamps_record_message ban_time g s now (h : handle T) :
  (length (get_timestamps (fst (record_message ban_time g s now h)) g s)
   <= length (get_timestamps h g s) + 1)%nat.
Proof.
  unfold record_message.
  destruct (_ && _)%bool; unfold get_timestamps at 1; simpl;
    rewrite lookup_insert_eq; simpl; [lia|].
  rewrite length_deque_append; lia.
Qed.

Lemma record_message_short ban_time g s now (h : handle T) :
  (length (get_timestamps h g s) + 1 < spamming_count)%nat ->
  snd (record_message ban_time g s now h) = [].
Proof.
  intros Hlen; unfold record_message.
  assert (E : Nat.leb spamming_count
                (length (deque_append spamming_count (get_timestamps h g s) now))
              = false).
  { apply Nat.leb_gt; rewrite length_deque_append; lia. }
  now rewrite E.
Qed.

(** X24: nobody is banned on fewer than five recorded messages: as long
    as the window of the sender and the messages that follow hold fewer
    than five timestamps together, no call bans, whatever the times. *)
Theorem no_ban_before_five db ev times (h : handle T) :
  (length (get_timestamps h (group_id ev) (sender_id ev)) + length times
   < spamming_count)%nat ->
  snd (spamming_ban_all db ev times h) = map (fun _ => []) times.
Proof.
  revert h; induction times as [|now times IH]; intros h Hlen; [reflexivity|].
  simpl in Hlen |- *.
  assert (Hstep : snd (spamming_ban db ev now h) = []
                  /\ (length (get_timestamps (fst (spamming_ban db ev now h))
                                (group_id ev) (sender_id ev))
                      <= length (get_timestamps h (group_id ev) (sender_id ev))
                         + 1)%nat).
  { destruct (spamming_ban_shape db ev now h) as [-> | ->].
    - simpl; split; [reflexivity | lia].
    - split; [apply record_message_short; lia
             |apply get_timestamps_record_message]. }
  destruct (spamming_ban db ev now h) as [h1 bans]; simpl in Hstep.
  destruct Hstep as [-> Hlen1].
  specialize (IH h1).
  destruct (spamming_ban_all db ev times h1) as [h2 log]; simpl in *.
  rewrite IH by lia; reflexivity.
Qed.

Lemma nth_last_two {A} (pre : list A) p x m d :
  length (drop m (pre ++ [p; x])) = 5%nat ->
  nth 3 (drop m (pre ++ [p; x])) d = p
  /\ nth 4 (drop m (pre ++ [p; x])) d = x.
Proof.
  rewrite length_drop, length_app; simpl; intros Hlen.
  assert (Hm : (m <= length pre)%nat) by lia.
  rewrite drop_app_le by exact Hm.
  assert (L : length (drop m pre) = 3%nat) by (rewrite length_drop; lia).
  split.
  - rewrite app_nth2 by lia; rewrite L; reflexivity.
  - rewrite app_nth2 by lia; rewrite L; reflexivity.
Qed.

(** X25: a message that does not come within the spamming interval of
    the last recorded one never bans, whatever came before. *)
Theorem slow_message_never_bans db ev now (h : handle T) earlier previous :
  get_timestamps h (group_id ev) (sender_id ev) = (earlier ++ [previous])%list ->
  t_ltb (t_sub now previous) spamming_interval = false ->
  snd (spamming_ban db ev now h) = [].
Proof.
  intros Hw Hgap.
  destruct (spamming_ban_shape db ev now h) as [-> | ->]; [reflexivity|].
  unfold record_message.
  set (ts := deque_append spamming_count
               (get_timestamps h (group_id ev) (sender_id ev)) now).
  destruct (Nat.leb spamming_count (length ts)) eqn:Elen; [|reflexivity].
  rewrite andb_true_l.
  assert (Hrec : exists m,
             last_n spamming_count ts = drop m (earlier ++ [previous; now])).
  { unfold last_n, ts, deque_append; rewrite Hw, <- app_assoc; simpl app.
    rewrite drop_drop; eauto. }
  destruct Hrec as [m Hrec].
  assert (L5 : length (last_n spamming_count ts) = 5%nat)
    by (apply length_last_n; now apply Nat.leb_le).
  rewrite Hrec in L5.
  destruct (nth_last_two earlier previous now m t_zero L5) as [N3 N4].
  destruct (forallb _ _) eqn:Eall; [|reflexivity].
  exfalso.
  pose proof (proj1 (forallb_intervals _ _ _) Eall 3%nat) as Hthree.
  rewrite Hrec in Hthree; simpl Nat.add in Hthree.
  rewrite N3, N4 in Hthree.
  rewrite Hthree in Hgap; [discriminate | unfold spamming_count; lia].
Qed.

End FloodFrame.

Section FloodFrameExamples.
Import BanproHandle FloodSpec FloodInv Scenario.

Lemma windows_stay_bounded_witness :
  windows_bounded
    (fst (spamming_ban_all flood_db flood_ev [10004 # 10; 2000]%Q flood_h0)).
Proof.
  refine (proj2 (windows_stay_bounded flood_db flood_ev [10004 # 10; 2000]%Q
                   flood_h0 _)).
  intros k d Hk.
  unfold flood_h0 in Hk; simpl in Hk.
  apply lookup_singleton_Some in Hk as [_ <-].
  vm_compute; lia.
Defined.

Lemma no_ban_before_five_witness :
  snd (spamming_ban_all flood_db flood_ev [1; 1; 1; 1]%Q flood_h1)
  = [[]; []; []; []].
Proof.
  apply (no_ban_before_five flood_db flood_ev [1; 1; 1; 1]%Q flood_h1).
  vm_compute; lia.
Defined.

Lemma slow_message_never_bans_witness :
  snd (spamming_ban flood_db flood_ev (10009 # 10)%Q flood_h0) = [].
Proof.
  apply (slow_message_never_bans flood_db flood_ev (10009 # 10)%Q flood_h0
           [1000; 10001 # 10; 10002 # 10]%Q (10003 # 10)%Q).
  - reflexivity.
  - reflexivity.
Defined.

End FloodFrameExamples.

(** ** Votes, the tally *)

Section VoteTally.
Import BanproHandle VoteSpec.
Context {T : Type} `{Clock T}.

Lemma filter_length_perm_bool (f : bool -> bool) (l l' : list bool) :
  Permutation l l' ->
  length (List.filter f l) = length (List.filter f l').
Proof.
  induction 1 as [|b l l' _ IH|b b' l|l l' l'' _ IH1 _ IH2]; simpl.
  - reflexivity.
  - destruct (f b); simpl; now rewrite IH.
  - destruct (f b), (f b'); reflexivity.
  - congruence.
Qed.

Lemma filter_length_perm (f : bool -> bool) (l l' : list (string * bool)) :
  Permutation l l' ->
  length (List.filter f l.*2) = length (List.filter f l'.*2).
Proof.
  intros Hp; apply filter_length_perm_bool.
  now apply fmap_Permutation.
Qed.

(** A vote replaces the stance the voter held before. *)
Lemma count_votes_insert stance voter agree (votes : gmap string bool) :
  count_votes stance (<[voter := agree]> votes)
  = count_votes stance (delete voter votes)
    + (if Bool.eqb stance agree then 1 else 0).
Proof.
  unfold count_votes.
  rewrite <- (insert_delete_eq votes voter agree).
  rewrite (filter_length_perm _ _ ((voter, agree)
                                     :: map_to_list (delete voter votes))).
  - rewrite fmap_cons; cbn [snd List.filter].
    destruct (Bool.eqb stance agree); cbn [length]; lia.
  - apply map_to_list_insert, lookup_delete_eq.
Qed.


Lemma count_votes_empty stance : count_votes stance ∅ = 0.
Proof. unfold count_votes; now rewrite map_to_list_empty. Qed.

(** The tally after a vote, in terms of the other voters. *)
Lemma vote_counts_last_stance_aux ev agree (h : handle T) record :
  vote_cache h !! group_id ev = Some record ->
  vote_mute ev agree h
  = if (threshold record
        <=? count_votes true (delete (sender_id ev) (votes record))
            + Z.b2z agree)%Z then
      (free_slot (group_id ev) (settle_tasks h) h,
       [{| ban_group := group_id ev; ban_user := target record;
           ban_duration := ban_time record |}], Passed)
    else if (threshold record
             <=? count_votes false (delete (sender_id ev) (votes record))
                 + Z.b2z (negb agree))%Z then
      (free_slot (group_id ev) (settle_tasks h) h, [], Rejected)
    else
      ({| msg_timestamps := msg_timestamps h;
          last_banned_time := last_banned_time h;
          vote_cache :=
            <[group_id ev :=
                {| target := target record;
                   votes := <[sender_id ev := agree]> (votes record);
                   ban_time := ban_time record;
                   expire := expire record;
                   threshold := threshold record |}]> (vote_cache h);
          settle_tasks := settle_tasks h |},
       [], Progress
             (count_votes true (delete (sender_id ev) (votes record))
              + Z.b2z agree)
             (count_votes false (delete (sender_id ev) (votes record))
              + Z.b2z (negb agree))
             (threshold record)).
Proof.
  intros E; unfold vote_mute; rewrite E.
  destruct (py_sum_counts
              (map_to_list (<[sender_id ev := agree]> (votes record))).*2)
    as [Ha Hd].
  rewrite Hd, Ha.
  fold (count_votes true (<[sender_id ev := agree]> (votes record))).
  fold (count_votes false (<[sender_id ev := agree]> (votes record))).
  rewrite !count_votes_insert.
  assert (A : forall n, n + (if Bool.eqb true agree then 1 else 0)
                        = n + Z.b2z agree) by (intros n; now destruct agree).
  assert (D : forall n, n + (if Bool.eqb false agree then 1 else 0)
                        = n + Z.b2z (negb agree))
    by (intros n; now destruct agree).
  rewrite A, D; reflexivity.
Qed.



Lemma run_cons conf (a : action T) rest h :
  run conf (a :: rest) h
  = (fst (run conf rest (fst (fst (step conf a h)))),
     (snd (fst (step conf a h)), snd (step conf a h))
     :: snd (run conf rest (fst (fst (step conf a h))))).
Proof.
  simpl; destruct (step conf a h) as [[h1 bans] out]; simpl.
  now destruct (run conf rest h1).
Qed.

(** A vote that goes on, seen from the tally of the others. *)
Lemma vote_mute_goes_on ev agree (h : handle T) record :
  vote_cache h !! group_id ev = Some record ->
  count_votes true (delete (sender_id ev) (votes record)) + Z.b2z agree
  < threshold record ->
  count_votes false (delete (sender_id ev) (votes record))
  + Z.b2z (negb agree) < threshold record ->
  vote_mute ev agree h
  = ({| msg_timestamps := msg_timestamps h;
        last_banned_time := last_banned_time h;
        vote_cache :=
          <[group_id ev :=
              {| target := target record;
                 votes := <[sender_id ev := agree]> (votes record);
                 ban_time := ban_time record;
                 expire := expire record;
                 threshold := threshold record |}]> (vote_cache h);
        settle_tasks := settle_tasks h |},
     [], Progress
           (count_votes true (delete (sender_id ev) (votes record))
            + Z.b2z agree)
           (count_votes false (delete (sender_id ev) (votes record))
            + Z.b2z (negb agree))
           (threshold record)).
Proof.
  intros E La Ld.
  rewrite (vote_counts_last_stance_aux ev agree h record E).
  apply Z.leb_gt in La, Ld; now rewrite La, Ld.
Qed.

(** X28: one voter cannot decide a vote whose threshold is two or more:
    while nobody else has voted, any number of votes of that voter, of
    any stance, ban nobody and leave the session open. *)
Theorem lone_voter_never_decides conf ev stances (h : handle T) record :
  vote_cache h !! group_id ev = Some record ->
  delete (sender_id ev) (votes record) = ∅ ->
  2 <= threshold record ->
  Forall (fun e => fst e = []
                   /\ exists a d, snd e = Progress a d (threshold record))
    (snd (run conf (map (fun agree => DoVote ev agree) stances) h))
  /\ exists record',
       vote_cache (fst (run conf (map (fun agree => DoVote ev agree) stances) h))
         !! group_id ev = Some record'
       /\ target record' = target record.
Proof.
  revert h record; induction stances as [|agree stances IH];
    intros h record E Hlone Hthr.
  - simpl; split; [constructor | eauto].
  - simpl map; rewrite run_cons; simpl step.
    rewrite (vote_mute_goes_on ev agree h record E)
      by (rewrite Hlone, count_votes_empty; destruct agree; simpl; lia).
    simpl fst; simpl snd.
    match goal with
    | |- context [run conf _ ?h1] =>
      destruct (IH h1 {| target := target record;
                         votes := <[sender_id ev := agree]> (votes record);
                         ban_time := ban_time record;
                         expire := expire record;
                         threshold := threshold record |})
        as (Hall & record' & E' & Ht);
        [simpl; apply lookup_insert_eq
        |simpl; now rewrite delete_insert_eq
        |exact Hthr|]
    end.
    simpl in Hall, Ht; split; [|eauto].
    constructor; [simpl; eauto | exact Hall].
Qed.





End VoteTally.

Section VoteTallyExamples.
Import BanproHandle VoteSpec Scenario.



Lemma lone_voter_never_decides_witness :
  exists record',
    vote_cache
      (fst (run vote_conf
              (map (fun agree => DoVote (msg "12" []) agree)
                 [true; false; true; true])
              (fst (run vote_conf two_votes idle)))) !! "100" = Some record'
    /\ target record' = "8".
Proof.
  refine (proj2 (lone_voter_never_decides vote_conf (msg "12" [])
                   [true; false; true; true]
                   (fst (run vote_conf two_votes idle)) vote_on_8 _ _ _)).
  - vm_compute; reflexivity.
  - vm_compute; reflexivity.
  - vm_compute; discriminate.
Defined.


End VoteTallyExamples.

(** ** The setters of the group settings *)

Section Setters.
Import GroupJoinData GroupJoinDataOps.

Lemma get_set jconf g kwargs cfg :
  get (set jconf g kwargs cfg) g
  = update (get (ensure_group jconf g cfg) g) kwargs.
Proof. unfold set, get at 1; now rewrite lookup_insert_eq. Qed.

Lemma set_other jconf g g' kwargs cfg :
  g' <> g -> set jconf g kwargs cfg !! g' = cfg !! g'.
Proof.
  intros Hne; unfold set.
  rewrite lookup_insert_ne by congruence; now apply ensure_group_other.
Qed.

Lemma block_ids_ensure_group jconf g cfg :
  match block_ids (get (ensure_group jconf g cfg) g) with
  | Some l => l
  | None => []
  end = get_block_ids cfg g.
Proof.
  unfold get_block_ids, get, ensure_group.
  destruct (cfg !! g) eqn:E; [now rewrite E | now rewrite lookup_insert_eq].
Qed.

(** X30: each setter stores its value, which its getter reads back, also
    for a group that had no settings; none of them changes the block list
    of the group or anything of another group; and after [remove] every
    getter of the group answers its default. *)
Theorem setters_round_trip jconf g cfg :
  (forall on, get_switch (set_switch jconf g on cfg) g = on)
  /\ (forall kws,
         get_accept_keywords (set_accept_keywords jconf g kws cfg) g = kws)
  /\ (forall kws,
         get_reject_keywords (set_reject_keywords jconf g kws cfg) g = kws)
  /\ (forall level, get_min_level (set_min_level jconf g level cfg) g = level)
  /\ (forall times, get_max_time (set_max_time jconf g times cfg) g = times)
  /\ (forall on kws level times,
         get_block_ids (set_switch jconf g on cfg) g = get_block_ids cfg g
         /\ get_block_ids (set_accept_keywords jconf g kws cfg) g
            = get_block_ids cfg g
         /\ get_block_ids (set_reject_keywords jconf g kws cfg) g
            = get_block_ids cfg g
         /\ get_block_ids (set_min_level jconf g level cfg) g
            = get_block_ids cfg g
         /\ get_block_ids (set_max_time jconf g times cfg) g
            = get_block_ids cfg g)
  /\ (forall kwargs g', g' <> g -> set jconf g kwargs cfg !! g' = cfg !! g')
  /\ (get_switch (remove g cfg) g = false
      /\ get_accept_keywords (remove g cfg) g = []
      /\ get_reject_keywords (remove g cfg) g = []
      /\ get_min_level (remove g cfg) g = 0
      /\ get_max_time (remove g cfg) g = 0
      /\ get_block_ids (remove g cfg) g = []).
Proof.
  pose proof (block_ids_ensure_group jconf g cfg) as B.
  repeat split;
    try (intros;
         unfold get_switch, get_accept_keywords, get_reject_keywords,
           get_min_level, get_max_time, set_switch, set_accept_keywords,
           set_reject_keywords, set_min_level, set_max_time;
         rewrite get_set; reflexivity);
    try (intros; unfold get_block_ids at 1, set_switch, set_accept_keywords,
           set_reject_keywords, set_min_level, set_max_time;
         rewrite get_set; exact B);
    try (intros; now apply set_other);
    unfold get_switch, get_accept_keywords, get_reject_keywords,
      get_min_level, get_max_time, get_block_ids, get, remove;
    now rewrite lookup_delete_eq.
Qed.

End Setters.
